(** * PyWizardLite: a shallow embedding of [pywizardlite.py]

    The development follows the module top to bottom: Python values and
    exceptions, the PowerShell version probe, the HTTP fetcher, the
    driver-acquisition pipeline and the bounded wait for an element.
    External collaborators (the host shell, [requests], [zipfile], [os] and
    the Selenium driver) are records of functions; what the module does to
    them is logged in an explicit machine state. *)

From Stdlib Require Import ZArith Lia Ascii String List Bool DecimalString.
From stdpp Require Import base option gmap strings list.

Local Open Scope Z_scope.

(** ** Python strings *)

Module PyStr.

(** The double-quote character (code point 34). *)
Definition dq : string := String (ascii_of_nat 34) EmptyString.

(** CR LF, the line terminator of a Windows console. *)
Definition crlf : string :=
  String (ascii_of_nat 13) (String (ascii_of_nat 10) EmptyString).

(** [str.isspace] on one character, for code points below 256:
    TAB..CR, FS..US, SPACE, NEL and NBSP. *)
Definition isspace (c : ascii) : bool :=
  let n := nat_of_ascii c in
  ((9 <=? n) && (n <=? 13) || (28 <=? n) && (n <=? 31) || (n =? 32)
   || (n =? 133) || (n =? 160))%nat.

(** [\d] of the [re] module on one character, for code points below 256. *)
Definition isdigit (c : ascii) : bool :=
  let n := nat_of_ascii c in ((48 <=? n) && (n <=? 57))%nat.

Definition is_empty (s : string) : bool :=
  match s with EmptyString => true | String _ _ => false end.

(** Truthiness of a [str]: every non-empty string is true. *)
Definition truthy (s : string) : bool := negb (is_empty s).

Fixpoint all_space (s : string) : bool :=
  match s with
  | EmptyString => true
  | String c s' => isspace c && all_space s'
  end.

Fixpoint lstrip (s : string) : string :=
  match s with
  | EmptyString => EmptyString
  | String c s' => if isspace c then lstrip s' else s
  end.

Fixpoint rstrip (s : string) : string :=
  match s with
  | EmptyString => EmptyString
  | String c s' =>
      let r := rstrip s' in
      if is_empty r && isspace c then EmptyString else String c r
  end.

(** [str.strip()]: whitespace removed at both ends. *)
Definition strip (s : string) : string := lstrip (rstrip s).

(** [sep.join(parts)]. *)
Fixpoint join (sep : string) (parts : list string) : string :=
  match parts with
  | [] => EmptyString
  | [p] => p
  | p :: rest => p +:+ sep +:+ join sep rest
  end.

(** The longest prefix of [s] made of characters satisfying [p]. *)
Fixpoint span (p : ascii -> bool) (s : string) : string :=
  match s with
  | EmptyString => EmptyString
  | String c s' => if p c then String c (span p s') else EmptyString
  end.


Fixpoint all_digits (s : string) : bool :=
  match s with
  | EmptyString => true
  | String c s' => isdigit c && all_digits s'
  end.

Definition starts_with_digit (s : string) : bool :=
  match s with
  | EmptyString => false
  | String c _ => isdigit c
  end.

(** [needle in haystack]. *)
Definition contains (haystack needle : string) : Prop :=
  exists before after, haystack = before +:+ needle +:+ after.

End PyStr.

(** ** Python exceptions

    The classes the module raises itself or lets through. [ElementNotFound]
    is the class the module declares; [NoSuchElementException] is the one
    Selenium's [find_element] raises when nothing matches; [OtherError] stands
    for any other class of a collaborator ([requests], [zipfile], [os]). *)

Inductive exception : Type :=
  | ElementNotFound (msg : string)
  | NoSuchElementException (msg : string)
  | KeyError (key : string)
  | UnboundLocalError (name : string)
  | TypeError (msg : string)
  | AttributeError (msg : string)
  | UnicodeDecodeError (msg : string)
  | SystemExit (code : Z)
  | BadZipFile (msg : string)
  | OtherError (cls msg : string).

(** [except ElementNotFound:] matches that class only. *)
Definition is_ElementNotFound (e : exception) : bool :=
  match e with ElementNotFound _ => true | _ => false end.

(** ** The host

    What the module asks of its collaborators, as functions of the host it
    runs on. *)

Record Request : Type := {
  url : string;
  proxies : option (gmap string string);
  stream : option bool;
  timeout : Z
}.

Record Response : Type := {
  status_code : Z;
  text : string;
  content : list Byte.byte
}.

(** How copying one entry out of a zip archive goes: [zipfile] opens the
    entry, then opens the target for writing, then copies, checking the
    entry as it reads. A failure after the target was opened leaves what was
    copied until then. *)
Inductive extraction : Type :=
  | Extracts
  | FailsBeforeOpen (e : exception)
  | FailsAfterOpen (e : exception) (written : list Byte.byte).

Record Host : Type := {
  (** [sys.platform] *)
  sys_platform : string;
  (** the value a PowerShell expression has on this host; the empty string
      stands for [$null], also when the expression fails, errors being
      silenced by [$ErrorActionPreference] *)
  ps_value : string -> string;
  (** [requests.get]: a response, or the exception it raises *)
  requests_get : Request -> exception + Response;
  (** the entries of a zip archive, by name; [None] when the bytes are not a
      zip archive *)
  zip_entries : list Byte.byte -> option (gmap string (list Byte.byte));
  (** the permission bits a newly created file gets *)
  creation_mode : Z;
  (** what [bytes.decode()] makes of the bytes the console writes for a
      text that is not empty: the decoded text, or [None] when those bytes
      are not valid UTF-8; the code page of the console decides *)
  console_decode : string -> option string;
  (** how copying the named entry of an archive out goes *)
  zip_read : list Byte.byte -> string -> extraction;
  (** the exception [os.chmod] raises for a file that is there, if it
      raises one (a [PermissionError], say) *)
  chmod_error : string -> option exception
}.

(** ** The PowerShell script of the version probe *)

Module PowerShell.

(** The statements the probe script is made of. *)
#[warnings="-register-all"] Inductive stmt : Type :=
  | SetErrorAction (preference : string)   (* $ErrorActionPreference='p' *)
  | Assign (var expression : string)       (* $var = expression *)
  | If (var : string) (body : list stmt)   (* if ($var) {body} *)
  | Echo (var : string)                    (* echo $var *)
  | Exit.                                  (* Exit *)

(** The text of a statement, each one closed by a semicolon, the
    statements of a block separated by one space. *)
Fixpoint render (s : stmt) : string :=
  match s with
  | SetErrorAction p => "$ErrorActionPreference='" +:+ p +:+ "';"
  | Assign v e => "$" +:+ v +:+ " = " +:+ e +:+ ";"
  | If v body =>
      "if ($" +:+ v +:+ ") {" +:+ PyStr.join " " (map render body) +:+ "};"
  | Echo v => "echo $" +:+ v +:+ ";"
  | Exit => "Exit;"
  end.

(** The state of a run: the variables, what was written to standard
    output, whether [Exit] was reached, and the expressions evaluated so
    far, oldest first. *)
Record run : Type := {
  vars : gmap string string;
  out : string;
  exited : bool;
  evaluated : list string
}.

Definition start : run :=
  {| vars := ∅; out := EmptyString; exited := false; evaluated := [] |}.

Definition value_of (r : run) (v : string) : string :=
  default EmptyString (vars r !! v).

(** One statement. Nothing runs once [Exit] was reached. [echo] writes the
    value and a line terminator. *)
Fixpoint exec (h : Host) (s : stmt) (r : run) : run :=
  if exited r then r else
  match s with
  | SetErrorAction _ => r
  | Assign v e =>
      {| vars := <[v := ps_value h e]> (vars r); out := out r;
         exited := false; evaluated := evaluated r ++ [e] |}
  | If v body =>
      if PyStr.truthy (value_of r v)
      then (fix block (b : list stmt) (r : run) : run :=
              match b with
              | [] => r
              | s' :: b' => block b' (exec h s' r)
              end) body r
      else r
  | Echo v =>
      {| vars := vars r; out := out r +:+ value_of r v +:+ PyStr.crlf;
         exited := false; evaluated := evaluated r |}
  | Exit =>
      {| vars := vars r; out := out r; exited := true;
         evaluated := evaluated r |}
  end.

Definition exec_all (h : Host) (script : list stmt) (r : run) : run :=
  fold_left (fun r s => exec h s r) script r.

(** *** Reading a command line

    The shell is given a string. What follows reads the statements back
    from it: the text between the quotes after [powershell -NoProfile] is
    cut at every semicolon, and the pieces are read one by one. A block
    [{...}] holds plain statements only. *)

(** [s] without the prefix [p], if it starts with it. *)
Fixpoint strip_prefix (p s : string) : option string :=
  match p, s with
  | EmptyString, _ => Some s
  | String a p', String b s' =>
      if Ascii.eqb a b then strip_prefix p' s' else None
  | String _ _, EmptyString => None
  end.

(** [s] without its last character, if that is [c]. *)
Fixpoint strip_last (c : ascii) (s : string) : option string :=
  match s with
  | EmptyString => None
  | String x s' =>
      match s' with
      | EmptyString => if Ascii.eqb x c then Some EmptyString else None
      | String _ _ =>
          match strip_last c s' with
          | Some t => Some (String x t)
          | None => None
          end
      end
  end.

(** Whether [c] occurs in [s]. *)
Fixpoint occurs (c : ascii) (s : string) : bool :=
  match s with
  | EmptyString => false
  | String x s' => Ascii.eqb x c || occurs c s'
  end.

(** The pieces of [s] between the occurrences of [c]. *)
Fixpoint split_on (c : ascii) (s : string) : list string :=
  match s with
  | EmptyString => [EmptyString]
  | String x s' =>
      if Ascii.eqb x c then EmptyString :: split_on c s'
      else match split_on c s' with
           | piece :: pieces => String x piece :: pieces
           | [] => [String x EmptyString]
           end
  end.

(** [s] cut at the first occurrence of [sep]. *)
Fixpoint split_at_first (sep s : string) : option (string * string) :=
  match strip_prefix sep s with
  | Some rest => Some (EmptyString, rest)
  | None =>
      match s with
      | EmptyString => None
      | String x s' =>
          match split_at_first sep s' with
          | Some (before, after) => Some (String x before, after)
          | None => None
          end
      end
  end.

Fixpoint skip_spaces (s : string) : string :=
  match s with
  | String c s' => if Ascii.eqb c " " then skip_spaces s' else s
  | EmptyString => EmptyString
  end.

(** One plain statement; [Some None] is the empty statement. *)
Definition read_plain (piece : string) : option (option stmt) :=
  let text := skip_spaces piece in
  if PyStr.is_empty text then Some None
  else
    match strip_prefix "$ErrorActionPreference='" text with
    | Some rest =>
        match strip_last "'" rest with
        | Some preference => Some (Some (SetErrorAction preference))
        | None => None
        end
    | None =>
        match strip_prefix "echo $" text with
        | Some var => Some (Some (Echo var))
        | None =>
            if String.eqb text "Exit" then Some (Some Exit)
            else
              match strip_prefix "$" text with
              | Some rest =>
                  match split_at_first " = " rest with
                  | Some (var, expression) => Some (Some (Assign var expression))
                  | None => None
                  end
              | None => None
              end
        end
    end.

Definition add_statement (s : option stmt) (l : list stmt) : list stmt :=
  match s with
  | Some s => l ++ [s]
  | None => l
  end.

(** The pieces read in turn; [block] is the variable and the body so far of
    the [if] that is open, [script] the statements read before. *)
Fixpoint read_pieces (pieces : list string) (block : option (string * list stmt))
    (script : list stmt) : option (list stmt) :=
  match pieces with
  | [] =>
      match block with
      | None => Some script
      | Some _ => None
      end
  | piece :: rest =>
      let text := skip_spaces piece in
      match block with
      | Some (var, body) =>
          if String.eqb text "}"
          then read_pieces rest None (script ++ [If var body])
          else
            match read_plain text with
            | Some s => read_pieces rest (Some (var, add_statement s body)) script
            | None => None
            end
      | None =>
          match strip_prefix "if ($" text with
          | Some after =>
              match split_at_first ") {" after with
              | Some (var, first) =>
                  match read_plain first with
                  | Some s => read_pieces rest (Some (var, add_statement s [])) script
                  | None => None
                  end
              | None => None
              end
          | None =>
              match read_plain text with
              | Some s => read_pieces rest None (add_statement s script)
              | None => None
              end
          end
      end
  end.

(** The statements of a command line [powershell -NoProfile "..."]. *)
Definition read_command_line (command : string) : option (list stmt) :=
  match strip_prefix ("powershell -NoProfile " +:+ PyStr.dq) command with
  | Some quoted =>
      match strip_last (ascii_of_nat 34) quoted with
      | Some script => read_pieces (split_on ";" script) None []
      | None => None
      end
  | None => None
  end.

End PowerShell.

(** ** The machine state

    The instance attributes of [PyWizardLite] and the effects of its
    methods: lines printed, shell commands spawned, PowerShell expressions
    evaluated, requests sent, files of the working directory. *)

Record File : Type := { data : list Byte.byte; mode : Z }.

Record Machine : Type := {
  _file_response : option Response;
  _driver : option string;
  printed : list string;
  spawned : list string;
  queried : list string;
  requests_sent : list Request;
  cwd : gmap string File
}.

(** A new [PyWizardLite()] on a machine with the given working directory. *)
Definition init (files : gmap string File) : Machine :=
  {| _file_response := None; _driver := None; printed := []; spawned := [];
     queried := []; requests_sent := []; cwd := files |}.

(** Methods run in a state-and-exception monad over [Machine]. *)
Definition Py (A : Type) : Type := Machine -> (exception + A) * Machine.

Definition pure {A} (a : A) : Py A := fun m => (inr a, m).
Definition raise {A} (e : exception) : Py A := fun m => (inl e, m).
Definition bind {A B} (c : Py A) (k : A -> Py B) : Py B :=
  fun m => match c m with
           | (inl e, m') => (inl e, m')
           | (inr a, m') => k a m'
           end.

Notation "'let*' x ':=' c 'in' k" := (bind c (fun x => k))
  (at level 10, x name, c at level 100, k at level 200).
Notation "c ';;' k" := (bind c (fun _ => k))
  (at level 100, k at level 200, right associativity).

Definition modify (f : Machine -> Machine) : Py unit := fun m => (inr tt, f m).

(** ** class PyWizardLite *)

(** [__COMMANDS]: where Chrome's version is looked up, most authoritative
    place first. *)
Definition COMMANDS : list string :=
  [ "(Get-Item -Path " +:+ PyStr.dq
      +:+ "$env:LOCALAPPDATA\Google\Chrome\Application\chrome.exe"
      +:+ PyStr.dq +:+ ").VersionInfo.FileVersion";
    "(Get-Item -Path " +:+ PyStr.dq
      +:+ "$env:PROGRAMFILES\Google\Chrome\Application\chrome.exe"
      +:+ PyStr.dq +:+ ").VersionInfo.FileVersion";
    "(Get-Item -Path " +:+ PyStr.dq
      +:+ "$env:PROGRAMFILES (x86)\Google\Chrome\Application\chrome.exe"
      +:+ PyStr.dq +:+ ").VersionInfo.FileVersion";
    "(Get-ItemProperty -Path Registry::" +:+ PyStr.dq
      +:+ "HKCU\SOFTWARE\Google\Chrome\BLBeacon"
      +:+ PyStr.dq +:+ ").version";
    "(Get-ItemProperty -Path Registry::" +:+ PyStr.dq
      +:+ "HKLM\SOFTWARE\Wow6432Node\Microsoft\Windows\CurrentVersion\Uninstall\Google Chrome"
      +:+ PyStr.dq +:+ ").version" ].

Definition system_requirements (h : Host) : bool :=
  String.eqb (sys_platform h) "win32".

(** [first_hit_template.format(expression = e)] *)
Definition first_hit_template (expression : string) : string :=
  "$tmp = " +:+ expression +:+ "; if ($tmp) {echo $tmp; Exit;};".

Definition construct_powershell_commands (commands : list string) : string :=
  let script := "$ErrorActionPreference='silentlycontinue'; "
                +:+ PyStr.join " " (map first_hit_template commands) in
  "powershell -NoProfile " +:+ PyStr.dq +:+ script +:+ PyStr.dq.

(** The statements of the script [construct_powershell_commands] writes
    (lemma [construct_powershell_commands_render] below): the preference,
    then for each command the two statements of the template. *)
Definition first_hit (expression : string) : list PowerShell.stmt :=
  [ PowerShell.Assign "tmp" expression;
    PowerShell.If "tmp" [PowerShell.Echo "tmp"; PowerShell.Exit] ].

Definition probe_script (commands : list string) : list PowerShell.stmt :=
  PowerShell.SetErrorAction "silentlycontinue" :: concat (map first_hit commands).

(** The pieces between the semicolons that one command adds to the script,
    each with the space that separates it from what comes before. *)
Definition first_hit_pieces (expression : string) : list string :=
  [ " $tmp = " +:+ expression; " if ($tmp) {echo $tmp"; " Exit"; "}" ].

(** [subprocess.Popen(script_command, ...).communicate()[0]]: the command
    line is spawned once and its standard output read to the end. The shell
    reads the statements from the command line and runs them; a command line
    it cannot read writes nothing to the standard output (the errors go to
    the standard error, which is discarded). The result is what was written,
    before the console turns it into bytes. *)
Definition popen (h : Host) (script_command : string) : Py string :=
  fun m =>
    let r := match PowerShell.read_command_line script_command with
             | Some script => PowerShell.exec_all h script PowerShell.start
             | None => PowerShell.start
             end in
    (inr (PowerShell.out r),
     {| _file_response := _file_response m; _driver := _driver m;
        printed := printed m; spawned := spawned m ++ [script_command];
        queried := queried m ++ PowerShell.evaluated r;
        requests_sent := requests_sent m; cwd := cwd m |}).

(** [.decode()] of the standard output: nothing written is no bytes, which
    decode to the empty string; bytes that are not valid UTF-8 raise. *)
Definition decode (h : Host) (written : string) : Py string :=
  if PyStr.is_empty written then pure EmptyString
  else match console_decode h written with
       | Some text => pure text
       | None => raise (UnicodeDecodeError "'utf-8' codec can't decode byte")
       end.

(** [__get_chrome_version], for any table of commands. *)
Definition get_chrome_version_of (h : Host) (commands : list string)
  : Py (option string) :=
  let script_command := construct_powershell_commands commands in
  let* written := popen h script_command in
  let* version := decode h written in
  pure (if PyStr.truthy version then Some (PyStr.strip version) else None).

Definition get_chrome_version (h : Host) : Py (option string) :=
  get_chrome_version_of h COMMANDS.

(** [__set_proxy]; [None] is the absent argument. *)
Definition set_proxy (proxy_url : option string) : option (gmap string string) :=
  match proxy_url with
  | Some p =>
      if PyStr.truthy p then Some (<["http" := p]> (<["https" := p]> ∅)) else None
  | None => None
  end.

(** [__get_request] *)
Definition get_request (h : Host) (url : string) (proxy_url : option string)
    (_stream : option bool) : Py Response :=
  let set_proxy := set_proxy proxy_url in
  let request := {| url := url; proxies := set_proxy; stream := _stream;
                    timeout := 120 |} in
  fun m =>
    let m' := {| _file_response := _file_response m; _driver := _driver m;
                 printed := printed m; spawned := spawned m;
                 queried := queried m;
                 requests_sent := requests_sent m ++ [request];
                 cwd := cwd m |} in
    match requests_get h request with
    | inl e => (inl e, m')
    | inr response => (inr response, m')
    end.

(** [__extract_zip]. [ZipFile.extract] looks the entry up, opens it, opens
    the target for writing in the working directory, which creates it or
    empties it, and copies. *)
Definition extract_zip (h : Host) : Py unit :=
  modify (fun m =>
    {| _file_response := _file_response m; _driver := Some "chromedriver.exe";
       printed := printed m; spawned := spawned m; queried := queried m;
       requests_sent := requests_sent m; cwd := cwd m |}) ;;
  fun m =>
    match _file_response m, _driver m with
    | None, _ =>
        (inl (AttributeError "'NoneType' object has no attribute 'content'"), m)
    | Some _, None => (inl (TypeError "member is None"), m)
    | Some response, Some member =>
        match zip_entries h (content response) with
        | None => (inl (BadZipFile "File is not a zip file"), m)
        | Some zip_file =>
            match zip_file !! member with
            | None =>
                (inl (KeyError ("There is no item named '" +:+ member
                                +:+ "' in the archive")), m)
            | Some bytes =>
                let bits := match cwd m !! member with
                            | Some old => mode old
                            | None => creation_mode h
                            end in
                let target (written : list Byte.byte) :=
                  {| _file_response := _file_response m; _driver := _driver m;
                     printed := printed m; spawned := spawned m;
                     queried := queried m; requests_sent := requests_sent m;
                     cwd := <[member := {| data := written; mode := bits |}]>
                              (cwd m) |} in
                match zip_read h (content response) member with
                | FailsBeforeOpen e => (inl e, m)
                | FailsAfterOpen e written => (inl e, target written)
                | Extracts => (inr tt, target bytes)
                end
            end
        end
    end.

(** [os.chmod(path, mode)] *)
Definition os_chmod (h : Host) (path : option string) (bits : Z) : Py unit :=
  fun m =>
    match path with
    | None => (inl (TypeError "chmod: path should be string, not NoneType"), m)
    | Some p =>
        match cwd m !! p with
        | None => (inl (OtherError "FileNotFoundError" p), m)
        | Some f =>
            match chmod_error h p with
            | Some e => (inl e, m)
            | None =>
                (inr tt,
                 {| _file_response := _file_response m; _driver := _driver m;
                    printed := printed m; spawned := spawned m;
                    queried := queried m; requests_sent := requests_sent m;
                    cwd := <[p := {| data := data f; mode := bits |}]> (cwd m) |})
            end
        end
    end.

(** [__set_execusion_permission]; 0o755 is 493. *)
Definition set_execusion_permission (h : Host) : Py unit :=
  fun m => os_chmod h (_driver m) 493 m.

(** [re.search(r"^\d+", version).group()]: [re.search] refuses [None]; when
    nothing matches it returns [None], which has no [group]. *)
Definition re_search_leading_digits_group (version : option string) : Py string :=
  match version with
  | None => raise (TypeError "expected string or bytes-like object")
  | Some v =>
      let found := PyStr.span PyStr.isdigit v in
      if PyStr.is_empty found
      then raise (AttributeError "'NoneType' object has no attribute 'group'")
      else pure found
  end.

(** [__download_chrome_web_driver] *)
Definition download_chrome_web_driver (h : Host) (proxy_url : option string)
  : Py unit :=
  let base_url := "https://chromedriver.storage.googleapis.com" in
  let* machine_chrome_version := get_chrome_version h in
  let* major_version := re_search_leading_digits_group machine_chrome_version in
  let version_latest_release := base_url +:+ "/LATEST_RELEASE_" +:+ major_version in
  let* latest := get_request h version_latest_release proxy_url None in
  let ver_lat_rel := PyStr.strip (text latest) in
  let content_response := base_url +:+ "/" +:+ ver_lat_rel +:+ "/chromedriver_win32.zip" in
  let* file_response := get_request h content_response proxy_url (Some true) in
  modify (fun m =>
    {| _file_response := Some file_response; _driver := _driver m;
       printed := printed m; spawned := spawned m; queried := queried m;
       requests_sent := requests_sent m; cwd := cwd m |}) ;;
  extract_zip h ;;
  set_execusion_permission h.

(** [print(line)] *)
Definition print (line : string) : Py unit :=
  modify (fun m =>
    {| _file_response := _file_response m; _driver := _driver m;
       printed := printed m ++ [line]; spawned := spawned m;
       queried := queried m; requests_sent := requests_sent m; cwd := cwd m |}).

(** [sys.exit(code)] raises [SystemExit]. *)
Definition sys_exit {A} (code : Z) : Py A := raise (SystemExit code).

(** [setup_chrome_web_driver] *)
Definition setup_chrome_web_driver (h : Host) (proxy_url : option string)
  : Py unit :=
  if system_requirements h
  then download_chrome_web_driver h proxy_url
  else (print "System does not meet the requirements" ;; sys_exit 0).

(** ** The bounded wait *)

(** [selenium.webdriver.common.by.By] *)
Inductive By : Type :=
  | CLASS_NAME | CSS_SELECTOR | ID | LINK_TEXT | NAME | PARTIAL_LINK_TEXT
  | TAG_NAME | XPATH.

Record WebElement : Type := { element_id : string }.

(** What one call of [driver.find_element] does: it returns a value
    ([None] here is Python's [None]) or raises. *)
Inductive answer : Type :=
  | Returns (value : option WebElement)
  | Raises (e : exception).

(** The driver passed by the caller. Its answers may change from call to
    call, so they are indexed by the number of calls made before; each call
    takes some time on the clock, in microseconds. *)
Record WebDriver : Type := {
  find_element : nat -> By -> string -> answer;
  find_element_time : nat -> N
}.

(** One second of the clock, which counts microseconds. *)
Definition second : Z := 1000000.

(** The clock and the driver as a call of the wait sees them: the time, the
    calls of [find_element] made so far, and the sleeps taken, in seconds,
    oldest first. *)
Record Session : Type := {
  now : Z;
  calls : nat;
  slept : list Z
}.

(** [time.time()] *)
Definition time_time (s : Session) : Z := now s.

(** [time.sleep(seconds)] *)
Definition time_sleep (seconds : Z) (s : Session) : Session :=
  {| now := now s + seconds * second; calls := calls s;
     slept := slept s ++ [seconds] |}.

(** [int(end_time - start_time)], of a difference in microseconds: whole
    seconds, rounded towards zero. *)
Definition int_seconds (microseconds : Z) : Z := Z.quot microseconds second.

Definition element_dict : gmap string By :=
  list_to_map
    [ ("ClassName", CLASS_NAME); ("CSSSelector", CSS_SELECTOR); ("ID", ID);
      ("LinkText", LINK_TEXT); ("Name", NAME);
      ("PartialLinkText", PARTIAL_LINK_TEXT); ("TagName", TAG_NAME);
      ("XPath", XPATH) ].

Definition not_found_message (element : string) : string :=
  "The element - " +:+ element +:+ " not found within the limited time!".

(** How a call of the wait ends. *)
Inductive completion : Type :=
  | Returned
  | Raised (e : exception).

(** The [try]/[except ElementNotFound] of one iteration. The result is the
    local variable [is_element_found] afterwards ([None]: not bound yet), or
    the exception that leaves the [try]. *)
Definition try_find_element (driver : WebDriver) (element_by element : string)
    (is_element_found : option bool) (s : Session)
  : (exception + option bool) * Session :=
  match element_dict !! element_by with
  | None => (inl (KeyError element_by), s)
  | Some by_ =>
      let s' := {| now := now s + Z.of_N (find_element_time driver (calls s));
                   calls := S (calls s); slept := slept s |} in
      match find_element driver (calls s) by_ element with
      | Returns (Some _) => (inr (Some true), s')
      | Returns None => (inr is_element_found, s')
      | Raises e =>
          if is_ElementNotFound e then (inr (Some false), s') else (inl e, s')
      end
  end.

(** The [while True] loop; [fuel] bounds the number of iterations, [None]
    means the bound was reached. *)
Fixpoint polling (fuel : nat) (driver : WebDriver) (element_by element : string)
    (wait_time found_wait_time start_time : Z)
    (is_element_found : option bool) (s : Session)
  : option (completion * Session) :=
  match fuel with
  | O => None
  | S fuel' =>
      let end_time := time_time s in
      let total_time := int_seconds (end_time - start_time) in
      if wait_time <=? total_time
      then Some (Raised (ElementNotFound (not_found_message element)), s)
      else
        match try_find_element driver element_by element is_element_found s with
        | (inl e, s') => Some (Raised e, s')
        | (inr None, s') =>
            Some (Raised (UnboundLocalError "is_element_found"), s')
        | (inr (Some true), s') =>
            Some (Returned, time_sleep found_wait_time s')
        | (inr (Some false), s') =>
            polling fuel' driver element_by element wait_time found_wait_time
              start_time (Some false) (time_sleep 1 s')
        end
  end.

(** [wait_until_element_is_visible]. Every iteration that goes on sleeps a
    second, so the loop is left after at most [wait_time + 1] iterations
    (lemma [wait_until_element_is_visible_total] below). *)
Definition wait_until_element_is_visible (driver : WebDriver)
    (element_by element : string) (default_time : option Z) (s : Session)
  : option (completion * Session) :=
  let wait_time := match default_time with
                   | None => 60
                   | Some t => t
                   end in
  let found_wait_time := 1 in
  let start_time := time_time s in
  polling (S (Z.to_nat wait_time)) driver element_by element wait_time
    found_wait_time start_time None s.

(** Time elapsed on the clock between two states of a session. *)
Definition elapsed (before after : Session) : Z := now after - now before.

(** ** The script of [generate_string_xpath]: [getXPath]

    The JavaScript function [getXPath] walks from a node of the page to the
    document. A node is known by where it sits: the children of its parent
    before it and after it, and where the parent sits. *)

Module Dom.

#[warnings="-register-all"] Inductive node : Type :=
  | Element (tagName : string) (childNodes : list node)
  | Text (data : string)
  | Comment (data : string).

Inductive position : Type :=
  | Detached                                     (* parentNode is null *)
  | InDocument (previous next : list node)       (* a child of the document *)
  | InElement (tagName : string) (previous next : list node)
      (parent : position).                       (* a child of an element *)

(** A node object: the document, or a node at a position. *)
Inductive ref : Type :=
  | Document (childNodes : list node)
  | At (n : node) (p : position).

(** [toLowerCase] on one character, for code points below 256. *)
Definition toLowerCase_char (c : ascii) : ascii :=
  let n := nat_of_ascii c in
  if ((65 <=? n) && (n <=? 90)
      || (192 <=? n) && (n <=? 222) && negb (n =? 215))%nat
  then ascii_of_nat (n + 32) else c.

Fixpoint toLowerCase (s : string) : string :=
  match s with
  | EmptyString => EmptyString
  | String c s' => String (toLowerCase_char c) (toLowerCase s')
  end.

(** A number in a template literal. *)
Definition decimal (z : Z) : string := NilEmpty.string_of_int (Z.to_int z).

(** The predicate of the [filter]: an element node with that tag name. *)
Definition same_tag (tagName : string) (n : node) : bool :=
  match n with
  | Element t _ => String.eqb (toLowerCase t) tagName
  | _ => false
  end.

(** The child nodes of a parent, each with its place among them, which is
    what tells one node object from another. *)
Definition numbered (childNodes : list node) : list (nat * node) :=
  imap (fun i n => (i, n)) childNodes.

(** [siblings.indexOf(element)]: the place of the first entry that is the
    element, or -1. *)
Fixpoint indexOf (siblings : list (nat * node)) (element : nat) : Z :=
  match siblings with
  | [] => -1
  | (i, _) :: rest =>
      if (i =? element)%nat then 0
      else let k := indexOf rest element in
           if k <? 0 then -1 else k + 1
  end.

(** The [index] of the element at place [length previous] among the
    children [previous ++ n :: next]. *)
Definition sibling_index (tagName : string) (previous : list node) (n : node)
    (next : list node) : Z :=
  let siblings := List.filter (fun entry => same_tag tagName entry.2)
                    (numbered (previous ++ n :: next)) in
  indexOf siblings (length previous) + 1.

(** [getXPath(node)] for a node that is not the document. A node that is
    not an element stands for its parent; the document has no [tagName] and
    [null] has no properties. *)
Fixpoint getXPath_at (n : node) (p : position) : exception + string :=
  match n, p with
  | Element t _, Detached => inr ("/" +:+ toLowerCase t)
  | Element t _, InDocument previous next =>
      let tagName := toLowerCase t in
      let index := sibling_index tagName previous n next in
      inr ("/" +:+ "/" +:+ tagName +:+ "[" +:+ decimal index +:+ "]")
  | Element t _, InElement parent_tag previous next up =>
      let tagName := toLowerCase t in
      let index := sibling_index tagName previous n next in
      match getXPath_at (Element parent_tag (previous ++ n :: next)) up with
      | inl e => inl e
      | inr parent_path =>
          inr (parent_path +:+ "/" +:+ tagName +:+ "[" +:+ decimal index +:+ "]")
      end
  | _, Detached =>
      inl (TypeError "Cannot read properties of null (reading 'tagName')")
  | _, InDocument _ _ =>
      inl (TypeError "Cannot read properties of undefined (reading 'toLowerCase')")
  | _, InElement parent_tag previous next up =>
      getXPath_at (Element parent_tag (previous ++ n :: next)) up
  end.

(** [getXPath(node)] *)
Definition getXPath (r : ref) : exception + string :=
  match r with
  | Document _ => inr "/"
  | At n p => getXPath_at n p
  end.

(** *** Reading a path

    A path of child steps [tag[index]] read from the document, to say what
    the paths of [getXPath] denote. *)

Definition step : Type := string * Z.

Definition render_step (s : step) : string :=
  "/" +:+ s.1 +:+ "[" +:+ decimal s.2 +:+ "]".

(** The steps from the document down to a node. *)
Fixpoint steps_to (n : node) (p : position) : list step :=
  match p with
  | Detached => []
  | InDocument previous next =>
      match n with
      | Element t _ =>
          [(toLowerCase t, sibling_index (toLowerCase t) previous n next)]
      | _ => []
      end
  | InElement parent_tag previous next up =>
      let parent := Element parent_tag (previous ++ n :: next) in
      match n with
      | Element t _ =>
          steps_to parent up
          ++ [(toLowerCase t, sibling_index (toLowerCase t) previous n next)]
      | _ => steps_to parent up
      end
  end.

(** The children of the document a node hangs under, if it does. *)
Fixpoint document_children (n : node) (p : position) : option (list node) :=
  match p with
  | Detached => None
  | InDocument previous next => Some (previous ++ n :: next)
  | InElement parent_tag previous next up =>
      document_children (Element parent_tag (previous ++ n :: next)) up
  end.

(** The child selected by the step [tag[index]]: the [index]-th of the
    element children with that tag, counted from 1, with the children before
    it and after it. *)
Fixpoint select (tag : string) (index : Z) (before children : list node)
  : option (list node * node * list node) :=
  match children with
  | [] => None
  | n :: rest =>
      if same_tag tag n
      then if index =? 1 then Some (before, n, rest)
           else select tag (index - 1) (before ++ [n]) rest
      else select tag index (before ++ [n]) rest
  end.

(** Following steps from a list of children; [place] makes the position of
    a child of the current parent. *)
Fixpoint resolve (place : list node -> list node -> position)
    (children : list node) (steps : list step) : option (node * position) :=
  match steps with
  | [] => None
  | (tag, index) :: rest =>
      match select tag index [] children with
      | Some (previous, Element t kids, next) =>
          let here := place previous next in
          match rest with
          | [] => Some (Element t kids, here)
          | _ :: _ =>
              resolve (fun previous' next' => InElement t previous' next' here)
                kids rest
          end
      | _ => None
      end
  end.

End Dom.

(** ** Hosts that differ in status codes only *)

(** The host whose responses carry the status code [f c] where those of [h]
    carry [c]. *)
Definition with_status_codes (f : Z -> Z) (h : Host) : Host :=
  {| sys_platform := sys_platform h;
     ps_value := ps_value h;
     requests_get := fun request =>
       match requests_get h request with
       | inl e => inl e
       | inr response =>
           inr {| status_code := f (status_code response);
                  text := text response; content := content response |}
       end;
     zip_entries := zip_entries h;
     creation_mode := creation_mode h;
     console_decode := console_decode h;
     zip_read := zip_read h;
     chmod_error := chmod_error h |}.

(** Two endings of a run that a caller cannot tell apart: the same result
    or exception, the same files, requests, driver attribute, lines printed
    and commands spawned. *)
Definition same_ending {A} (x' x : (exception + A) * Machine) : Prop :=
  x'.1 = x.1
  /\ cwd x'.2 = cwd x.2
  /\ requests_sent x'.2 = requests_sent x.2
  /\ _driver x'.2 = _driver x.2
  /\ printed x'.2 = printed x.2
  /\ spawned x'.2 = spawned x.2.

(** * Properties *)

(** ** Strings *)

Module PyStrFacts.
Import PyStr.

(** The two equations of string concatenation, which [simpl] leaves
    folded. *)
Lemma app_nil_l (t : string) : EmptyString +:+ t = t.
Proof. reflexivity. Qed.

Lemma app_cons (c : ascii) (s t : string) :
  String c s +:+ t = String c (s +:+ t).
Proof. reflexivity. Qed.

Create Rewrite HintDb pystr.
#[export] Hint Rewrite app_nil_l app_cons : pystr.

Lemma app_empty_r (s : string) : s +:+ EmptyString = s.
Proof.
  induction s as [|c s IH]; autorewrite with pystr;
    [reflexivity | now rewrite IH].
Qed.

Lemma app_assoc (a b c : string) : (a +:+ b) +:+ c = a +:+ (b +:+ c).
Proof.
  induction a as [|x a IH]; autorewrite with pystr;
    [reflexivity | now rewrite IH].
Qed.

Lemma is_empty_true (s : string) : is_empty s = true <-> s = EmptyString.
Proof. destruct s; simpl; split; congruence. Qed.

Lemma truthy_true (s : string) : truthy s = true <-> s <> EmptyString.
Proof. destruct s; simpl; split; intros; done. Qed.

Lemma truthy_false (s : string) : truthy s = false <-> s = EmptyString.
Proof. destruct s; simpl; split; intros; done. Qed.

Lemma truthy_app_l (a b : string) : truthy a = true -> truthy (a +:+ b) = true.
Proof. destruct a; [discriminate | reflexivity]. Qed.

Lemma rstrip_all_space (w : string) : all_space w = true -> rstrip w = EmptyString.
Proof.
  induction w as [|c w IH]; simpl; [reflexivity|].
  intros [Hc Hw]%andb_prop. now rewrite (IH Hw), Hc.
Qed.

Lemma rstrip_app_space (s w : string) :
  all_space w = true -> rstrip (s +:+ w) = rstrip s.
Proof.
  intros Hw. induction s as [|c s IH]; autorewrite with pystr; simpl.
  - now apply rstrip_all_space.
  - now rewrite IH.
Qed.

(** Whitespace added at the end does not change what [strip] returns. *)
Lemma strip_app_space (s w : string) :
  all_space w = true -> strip (s +:+ w) = strip s.
Proof. intros Hw. unfold strip. now rewrite rstrip_app_space. Qed.

Lemma all_space_crlf : all_space crlf = true.
Proof. reflexivity. Qed.

(** [span p s] is a prefix of [s], and what follows it does not start
    with a character satisfying [p]. *)
Lemma span_split (p : ascii -> bool) (s : string) :
  exists rest, s = span p s +:+ rest
               /\ match rest with
                  | EmptyString => True
                  | String c _ => p c = false
                  end.
Proof.
  induction s as [|c s [rest [Hs Hrest]]]; simpl.
  - now exists EmptyString.
  - destruct (p c) eqn:Hc.
    + exists rest. autorewrite with pystr. split; [now rewrite <- Hs | exact Hrest].
    + exists (String c s). now split.
Qed.

Lemma span_isdigit_all_digits (s : string) : all_digits (span isdigit s) = true.
Proof.
  induction s as [|c s IH]; simpl; [reflexivity|].
  destruct (isdigit c) eqn:Hc; simpl; [now rewrite Hc | reflexivity].
Qed.

Lemma span_isdigit_empty (s : string) :
  is_empty (span isdigit s) = negb (starts_with_digit s).
Proof. destruct s as [|c s]; simpl; [reflexivity | now destruct (isdigit c)]. Qed.

Lemma join_cons (sep p : string) (rest : list string) :
  rest <> [] -> join sep (p :: rest) = p +:+ sep +:+ join sep rest.
Proof. destruct rest; [congruence | reflexivity]. Qed.

End PyStrFacts.

(** ** The version probe *)

Module PowerShellFacts.
Import PowerShell.

Lemma exec_exited (h : Host) (s : stmt) (r : run) :
  exited r = true -> exec h s r = r.
Proof. intros Hr. destruct s; simpl; now rewrite Hr. Qed.

Lemma exec_all_exited (h : Host) (script : list stmt) (r : run) :
  exited r = true -> exec_all h script r = r.
Proof.
  revert r. induction script as [|s script IH]; intros r Hr; [reflexivity|].
  unfold exec_all in *. simpl. rewrite exec_exited by exact Hr. now apply IH.
Qed.

Lemma exec_all_app (h : Host) (a b : list stmt) (r : run) :
  exec_all h (a ++ b) r = exec_all h b (exec_all h a r).
Proof. unfold exec_all. apply fold_left_app. Qed.

(** A command without a value: [$tmp] is assigned, nothing is written and
    the script goes on. *)
Lemma first_hit_miss (h : Host) (e : string) (r : run) :
  exited r = false -> ps_value h e = EmptyString ->
  exec_all h (first_hit e) r =
    {| vars := <["tmp" := EmptyString]> (vars r); out := out r;
       exited := false; evaluated := evaluated r ++ [e] |}.
Proof.
  intros Hr He. unfold exec_all, first_hit. simpl. rewrite Hr, He.
  unfold value_of. simpl. now rewrite lookup_insert_eq.
Qed.

(** A command with a value: the value is written and the script exits. *)
Lemma first_hit_hit (h : Host) (e : string) (r : run) :
  exited r = false -> ps_value h e <> EmptyString ->
  exec_all h (first_hit e) r =
    {| vars := <["tmp" := ps_value h e]> (vars r);
       out := out r +:+ ps_value h e +:+ PyStr.crlf;
       exited := true; evaluated := evaluated r ++ [e] |}.
Proof.
  intros Hr He. unfold exec_all, first_hit. simpl. rewrite Hr.
  unfold value_of. simpl. rewrite lookup_insert_eq. simpl.
  apply PyStrFacts.truthy_true in He. now rewrite He.
Qed.

Lemma probe_all_miss (h : Host) (commands : list string) (r : run) :
  exited r = false ->
  Forall (fun e => ps_value h e = EmptyString) commands ->
  let r' := exec_all h (concat (map first_hit commands)) r in
  out r' = out r /\ exited r' = false
  /\ evaluated r' = evaluated r ++ commands.
Proof.
  revert r. induction commands as [|e commands IH]; intros r Hr Hall.
  - simpl. now rewrite app_nil_r.
  - apply Forall_cons in Hall as [He Hall].
    change (concat (map first_hit (e :: commands)))
      with (first_hit e ++ concat (map first_hit commands)).
    cbv zeta. rewrite exec_all_app, (first_hit_miss h e r Hr He).
    match goal with |- context [exec_all h _ ?r1] =>
      destruct (IH r1 eq_refl Hall) as (Ho & Hx & Hv)
    end.
    simpl in *. rewrite Ho, Hx, Hv. now rewrite <- app_assoc.
Qed.

Lemma probe_first_hit (h : Host) (before after : list string) (e : string)
    (r : run) :
  exited r = false ->
  Forall (fun e' => ps_value h e' = EmptyString) before ->
  ps_value h e <> EmptyString ->
  let r' := exec_all h (concat (map first_hit (before ++ e :: after))) r in
  out r' = out r +:+ ps_value h e +:+ PyStr.crlf
  /\ evaluated r' = evaluated r ++ before ++ [e].
Proof.
  intros Hr Hmiss He. cbv zeta.
  rewrite map_app, concat_app, exec_all_app.
  change (concat (map first_hit (e :: after)))
    with (first_hit e ++ concat (map first_hit after)).
  destruct (probe_all_miss h before r Hr Hmiss) as (Ho & Hx & Hv).
  rewrite exec_all_app, (first_hit_hit h e _ Hx He).
  rewrite exec_all_exited by reflexivity. simpl.
  rewrite Ho, Hv. now rewrite <- app_assoc.
Qed.

End PowerShellFacts.

(** The command line is the rendering of the statements the shell runs. *)
Lemma first_hit_template_render (e : string) :
  first_hit_template e = PyStr.join " " (map PowerShell.render (first_hit e)).
Proof.
  unfold first_hit_template, first_hit. simpl.
  now autorewrite with pystr; rewrite ?PyStrFacts.app_assoc.
Qed.

Lemma join_first_hit_templates (commands : list string) :
  PyStr.join " " (map first_hit_template commands)
  = PyStr.join " " (map PowerShell.render (concat (map first_hit commands))).
Proof.
  induction commands as [|e commands IH]; [reflexivity|].
  change (concat (map first_hit (e :: commands)))
    with (first_hit e ++ concat (map first_hit commands)).
  destruct commands as [|e' commands].
  - simpl concat. rewrite app_nil_r. apply first_hit_template_render.
  - rewrite map_cons, PyStrFacts.join_cons by discriminate. rewrite IH.
    rewrite first_hit_template_render.
    change (concat (map first_hit (e' :: commands)))
      with (first_hit e' ++ concat (map first_hit commands)).
    unfold first_hit at 1 3. simpl map. simpl PyStr.join.
    now autorewrite with pystr; rewrite ?PyStrFacts.app_assoc.
Qed.

Lemma construct_powershell_commands_render (commands : list string) :
  construct_powershell_commands commands
  = "powershell -NoProfile " +:+ PyStr.dq
    +:+ (PowerShell.render (PowerShell.SetErrorAction "silentlycontinue")
         +:+ " "
         +:+ PyStr.join " "
               (map PowerShell.render (concat (map first_hit commands))))
    +:+ PyStr.dq.
Proof.
  unfold construct_powershell_commands. rewrite join_first_hit_templates.
  simpl PowerShell.render. now rewrite !PyStrFacts.app_assoc.
Qed.


(** ** Reading the command line back *)

Module ReadFacts.
Import PowerShell.

Lemma strip_prefix_app (p s : string) : strip_prefix p (p +:+ s) = Some s.
Proof.
  induction p as [|c p IH]; [reflexivity|].
  rewrite PyStrFacts.app_cons. simpl. now rewrite Ascii.eqb_refl.
Qed.

Lemma strip_last_app (c : ascii) (s : string) :
  strip_last c (s +:+ String c EmptyString) = Some s.
Proof.
  induction s as [|x s IH].
  - simpl. now rewrite Ascii.eqb_refl.
  - rewrite PyStrFacts.app_cons. cbn [strip_last]. rewrite IH.
    destruct s; reflexivity.
Qed.

Lemma occurs_app (c : ascii) (a b : string) :
  occurs c (a +:+ b) = occurs c a || occurs c b.
Proof.
  induction a as [|x a IH]; [reflexivity|].
  rewrite PyStrFacts.app_cons. simpl. now rewrite IH, orb_assoc.
Qed.

Lemma split_on_app (c : ascii) (a b : string) :
  occurs c a = false ->
  split_on c (a +:+ b)
  = match split_on c b with
    | piece :: pieces => (a +:+ piece) :: pieces
    | [] => [a]
    end.
Proof.
  induction a as [|x a IH]; intros Ha.
  - rewrite PyStrFacts.app_nil_l. destruct b; simpl; [reflexivity|].
    destruct (Ascii.eqb a c); [reflexivity|]. now destruct (split_on c b).
  - simpl in Ha. apply orb_false_iff in Ha as [Hx Ha].
    rewrite PyStrFacts.app_cons. cbn [split_on]. rewrite Hx, (IH Ha).
    destruct (split_on c b); reflexivity.
Qed.

Lemma split_on_whole (c : ascii) (a : string) :
  occurs c a = false -> split_on c a = [a].
Proof.
  intros Ha. rewrite <- (PyStrFacts.app_empty_r a) at 1.
  rewrite (split_on_app c a EmptyString Ha). simpl.
  now rewrite PyStrFacts.app_empty_r.
Qed.

(** Cutting at the separator gives back the pieces that were joined with
    it, when none of them holds it. *)
Lemma split_on_join (c : ascii) (pieces : list string) :
  pieces <> [] ->
  Forall (fun piece => occurs c piece = false) pieces ->
  split_on c (PyStr.join (String c EmptyString) pieces) = pieces.
Proof.
  induction pieces as [|p pieces IH]; [congruence|]. intros _ Hall.
  apply Forall_cons in Hall as [Hp Hall].
  destruct pieces as [|q pieces].
  - simpl. now apply split_on_whole.
  - rewrite PyStrFacts.join_cons by discriminate.
    rewrite (split_on_app c p _ Hp). rewrite PyStrFacts.app_cons.
    cbn [split_on]. rewrite Ascii.eqb_refl, PyStrFacts.app_nil_l.
    rewrite IH by (discriminate || assumption).
    now rewrite PyStrFacts.app_empty_r.
Qed.

Lemma join_app (sep : string) (a b : list string) :
  a <> [] -> b <> [] ->
  PyStr.join sep (a ++ b) = PyStr.join sep a +:+ sep +:+ PyStr.join sep b.
Proof.
  intros Ha Hb. induction a as [|p a IH]; [congruence|].
  destruct a as [|q a].
  - simpl app. now rewrite PyStrFacts.join_cons by exact Hb.
  - rewrite <- app_comm_cons.
    rewrite !PyStrFacts.join_cons by discriminate.
    rewrite IH by discriminate. now rewrite !PyStrFacts.app_assoc.
Qed.

End ReadFacts.

(** One template, with the space before it, is its four pieces and an
    empty one joined with semicolons. *)
Lemma first_hit_template_pieces (e : string) :
  " " +:+ first_hit_template e
  = PyStr.join ";" (first_hit_pieces e ++ [EmptyString]).
Proof.
  unfold first_hit_template, first_hit_pieces. simpl.
  repeat (rewrite ?PyStrFacts.app_assoc; autorewrite with pystr).
  reflexivity.
Qed.

Lemma first_hit_templates_pieces (commands : list string) :
  commands <> [] ->
  " " +:+ PyStr.join " " (map first_hit_template commands)
  = PyStr.join ";" (concat (map first_hit_pieces commands) ++ [EmptyString]).
Proof.
  induction commands as [|e commands IH]; [congruence|]. intros _.
  destruct commands as [|e' commands].
  - change (concat (map first_hit_pieces [e])) with (first_hit_pieces e ++ []).
    rewrite app_nil_r. apply first_hit_template_pieces.
  - rewrite map_cons, PyStrFacts.join_cons by discriminate.
    rewrite <- PyStrFacts.app_assoc, first_hit_template_pieces.
    rewrite IH by discriminate.
    change (concat (map first_hit_pieces (e :: e' :: commands)))
      with (first_hit_pieces e
            ++ concat (map first_hit_pieces (e' :: commands))).
    rewrite <- (app_assoc (first_hit_pieces e)).
    rewrite (ReadFacts.join_app ";" (first_hit_pieces e)
               (concat (map first_hit_pieces (e' :: commands)) ++ [EmptyString]))
      by (try discriminate; now destruct (concat _)).
    rewrite (ReadFacts.join_app ";" (first_hit_pieces e) [EmptyString])
      by discriminate.
    simpl (PyStr.join ";" [EmptyString]).
    now rewrite !PyStrFacts.app_assoc, PyStrFacts.app_nil_l.
Qed.

Lemma first_hit_pieces_read (e : string) (rest : list string)
    (script : list PowerShell.stmt) :
  PowerShell.read_pieces (first_hit_pieces e ++ rest) None script
  = PowerShell.read_pieces rest None (script ++ first_hit e).
Proof.
  unfold first_hit_pieces, first_hit. autorewrite with pystr.
  simpl. now rewrite PyStrFacts.app_nil_l, <- app_assoc.
Qed.

Lemma probe_pieces_read (commands : list string) (rest : list string)
    (script : list PowerShell.stmt) :
  PowerShell.read_pieces (concat (map first_hit_pieces commands) ++ rest)
    None script
  = PowerShell.read_pieces rest None (script ++ concat (map first_hit commands)).
Proof.
  revert script. induction commands as [|e commands IH]; intros script.
  - simpl. now rewrite app_nil_r.
  - change (concat (map first_hit_pieces (e :: commands)))
      with (first_hit_pieces e ++ concat (map first_hit_pieces commands)).
    change (concat (map first_hit (e :: commands)))
      with (first_hit e ++ concat (map first_hit commands)).
    rewrite <- app_assoc, first_hit_pieces_read, IH.
    now rewrite <- app_assoc.
Qed.

Lemma first_hit_pieces_free (e : string) :
  PowerShell.occurs ";" e = false ->
  Forall (fun piece => PowerShell.occurs ";" piece = false) (first_hit_pieces e).
Proof.
  intros He. unfold first_hit_pieces. repeat constructor.
  now rewrite ReadFacts.occurs_app, He.
Qed.

(** The shell reads from the command line the code builds the statements
    of the probe, when no command holds a semicolon. *)
Lemma read_command_line_construct (commands : list string) :
  Forall (fun e => PowerShell.occurs ";" e = false) commands ->
  PowerShell.read_command_line (construct_powershell_commands commands)
  = Some (probe_script commands).
Proof.
  intros Hfree. unfold PowerShell.read_command_line, construct_powershell_commands.
  rewrite <- PyStrFacts.app_assoc, ReadFacts.strip_prefix_app.
  unfold PyStr.dq at 1. rewrite ReadFacts.strip_last_app.
  set (tail := match commands with [] => " " | _ :: _ => EmptyString end).
  assert ("$ErrorActionPreference='silentlycontinue'; "
          +:+ PyStr.join " " (map first_hit_template commands)
          = PyStr.join ";"
              ("$ErrorActionPreference='silentlycontinue'"
               :: concat (map first_hit_pieces commands) ++ [tail])) as ->.
  { rewrite PyStrFacts.join_cons by now destruct (concat _).
    destruct commands as [|e commands].
    - reflexivity.
    - rewrite <- first_hit_templates_pieces by discriminate.
      now repeat (rewrite ?PyStrFacts.app_assoc; autorewrite with pystr). }
  rewrite ReadFacts.split_on_join; [|discriminate|].
  - cbn [PowerShell.read_pieces]. 
    change (PowerShell.skip_spaces "$ErrorActionPreference='silentlycontinue'")
      with "$ErrorActionPreference='silentlycontinue'".
    change (PowerShell.strip_prefix "if ($" "$ErrorActionPreference='silentlycontinue'")
      with (@None string).
    change (PowerShell.read_plain "$ErrorActionPreference='silentlycontinue'")
      with (Some (Some (PowerShell.SetErrorAction "silentlycontinue"))).
    cbn [PowerShell.add_statement app].
    rewrite probe_pieces_read. unfold probe_script.
    destruct commands; reflexivity.
  - constructor; [reflexivity|]. apply Forall_app. split.
    + apply Forall_concat, Forall_fmap. 
      eapply Forall_impl; [exact Hfree|]. intros e He.
      now apply first_hit_pieces_free.
    + constructor; [now destruct commands | constructor].
Qed.
(** What the shell answers to the command line of the probe. *)
Lemma popen_first_hit (h : Host) (before after : list string) (e : string)
    (m : Machine) :
  Forall (fun e' => PowerShell.occurs ";" e' = false) (before ++ e :: after) ->
  Forall (fun e' => ps_value h e' = EmptyString) before ->
  ps_value h e <> EmptyString ->
  exists m',
    popen h (construct_powershell_commands (before ++ e :: after)) m
    = (inr (ps_value h e +:+ PyStr.crlf), m')
    /\ queried m' = queried m ++ before ++ [e]
    /\ spawned m' = spawned m ++ [construct_powershell_commands (before ++ e :: after)]
    /\ requests_sent m' = requests_sent m /\ cwd m' = cwd m.
Proof.
  intros Hfree Hmiss He. eexists. unfold popen.
  rewrite (read_command_line_construct _ Hfree). unfold probe_script.
  change (PowerShell.exec_all h (?s :: ?l) ?r)
    with (PowerShell.exec_all h l (PowerShell.exec h s r)).
  destruct (PowerShellFacts.probe_first_hit h before after e
              (PowerShell.exec h (PowerShell.SetErrorAction "silentlycontinue")
                 PowerShell.start) eq_refl Hmiss He) as [Ho Hv].
  rewrite Ho, Hv. simpl. repeat split; reflexivity.
Qed.


(** Decoding raises nothing but [UnicodeDecodeError] and leaves the machine
    as it is. *)
Lemma decode_cases (h : Host) (written : string) (m : Machine) :
  (exists text, decode h written m = (inr text, m))
  \/ (exists msg, decode h written m = (inl (UnicodeDecodeError msg), m)
                  /\ written <> EmptyString /\ console_decode h written = None).
Proof.
  unfold decode. destruct written as [|c written]; [left; now eexists|].
  cbn [PyStr.is_empty]. destruct (console_decode h _); [left | right]; eexists;
    [reflexivity|]. now repeat split.
Qed.

Lemma decode_faithful (h : Host) (written : string) (m : Machine) :
  written <> EmptyString ->
  console_decode h written = Some written ->
  decode h written m = (inr written, m).
Proof.
  intros Hw Hd. unfold decode. destruct written; [done|].
  cbn [PyStr.is_empty]. now rewrite Hd.
Qed.

(** The written line of a value is not empty. *)
Lemma line_not_empty (v : string) : v +:+ PyStr.crlf <> EmptyString.
Proof. destruct v; discriminate. Qed.

(** The probe returns the stripped value of the first command that has
    one, after evaluating the commands up to it and no other. *)
Lemma get_chrome_version_of_first_hit (h : Host) (before after : list string)
    (e : string) (m : Machine) :
  Forall (fun e' => PowerShell.occurs ";" e' = false) (before ++ e :: after) ->
  Forall (fun e' => ps_value h e' = EmptyString) before ->
  ps_value h e <> EmptyString ->
  console_decode h (ps_value h e +:+ PyStr.crlf)
  = Some (ps_value h e +:+ PyStr.crlf) ->
  exists m',
    get_chrome_version_of h (before ++ e :: after) m
    = (inr (Some (PyStr.strip (ps_value h e))), m')
    /\ queried m' = queried m ++ before ++ [e]
    /\ spawned m' = spawned m ++ [construct_powershell_commands (before ++ e :: after)]
    /\ requests_sent m' = requests_sent m /\ cwd m' = cwd m.
Proof.
  intros Hfree Hmiss He Hdecode.
  destruct (popen_first_hit h before after e m Hfree Hmiss He) as (m' & Hp & Hrest).
  exists m'. split; [|exact Hrest].
  unfold get_chrome_version_of. cbv zeta. unfold bind. rewrite Hp.
  rewrite (decode_faithful h _ m' (line_not_empty _) Hdecode). unfold pure.
  rewrite PyStrFacts.truthy_app_l by now apply PyStrFacts.truthy_true.
  now rewrite PyStrFacts.strip_app_space by apply PyStrFacts.all_space_crlf.
Qed.



(** The commands before position [i] have no value when no other command
    than the one at [i] has. *)
Lemma misses_before (h : Host) (commands : list string) (i : nat) :
  (forall (j : nat) (e' : string),
      (j < i)%nat -> commands !! j = Some e' -> ps_value h e' = EmptyString) ->
  Forall (fun e' => ps_value h e' = EmptyString) (take i commands).
Proof.
  intros Hbefore. apply Forall_lookup. intros j e' Hj.
  apply lookup_take_Some in Hj as [Hj Hlt]. now apply (Hbefore j).
Qed.




(** The condition on semicolons is needed as well. A command that holds
    one is more than one statement once it is put in the template: here the
    command writes the value of [a] when it is run by itself, and the probe
    returns the value of [b], which the command assigns last. *)
Lemma version_probe_command_with_semicolon :
  let h := {| sys_platform := "win32";
              ps_value := fun e =>
                if String.eqb e "a; $tmp = b" then "119.0.6045.105"
                else if String.eqb e "a" then "119.0.6045.105"
                else if String.eqb e "b" then "118.0.5993.70"
                else EmptyString;
              requests_get := fun _ => inl (OtherError "ConnectionError" "offline");
              zip_entries := fun _ => None;
              creation_mode := 438; console_decode := Some;
              zip_read := fun _ _ => Extracts; chmod_error := fun _ => None |} in
  ps_value h "a; $tmp = b" = "119.0.6045.105"
  /\ exists m',
       get_chrome_version_of h ["a; $tmp = b"] (init ∅)
       = (inr (Some "118.0.5993.70"), m')
       /\ queried m' = ["a"; "b"].
Proof.
  intros h. split; [reflexivity|]. eexists. split; vm_compute; reflexivity.
Qed.

(** ** The monad *)

Lemma bind_inr {A B} (c : Py A) (k : A -> Py B) (m m' : Machine) (b : B) :
  bind c k m = (inr b, m') ->
  exists a m1, c m = (inr a, m1) /\ k a m1 = (inr b, m').
Proof.
  unfold bind. destruct (c m) as [[e|a] m1]; [discriminate|]. intros H.
  now exists a, m1.
Qed.

Lemma bind_raises {A B} (c : Py A) (k : A -> Py B) (m m' : Machine)
    (e : exception) :
  c m = (inl e, m') -> bind c k m = (inl e, m').
Proof. intros H. unfold bind. now rewrite H. Qed.

Lemma bind_returns {A B} (c : Py A) (k : A -> Py B) (m m' : Machine) (a : A) :
  c m = (inr a, m') -> bind c k m = k a m'.
Proof. intros H. unfold bind. now rewrite H. Qed.

(** ** The fetcher *)

(** The proxy map of a non-empty proxy URL has the two schemes and nothing
    else, both at that URL. *)
Lemma set_proxy_lookup (proxy_url scheme : string) :
  proxy_url <> EmptyString ->
  exists proxy_map,
    set_proxy (Some proxy_url) = Some proxy_map
    /\ proxy_map !! scheme
       = if decide (scheme = "http" \/ scheme = "https") then Some proxy_url
         else None.
Proof.
  intros Hp. unfold set_proxy.
  apply PyStrFacts.truthy_true in Hp. rewrite Hp. eexists. split; [reflexivity|].
  destruct (decide (scheme = "http")) as [->|Hhttp].
  - now rewrite lookup_insert_eq.
  - rewrite lookup_insert_ne by congruence.
    destruct (decide (scheme = "https")) as [->|Hhttps].
    + now rewrite lookup_insert_eq.
    + rewrite lookup_insert_ne by congruence. rewrite lookup_empty.
      case_decide as Hd; [destruct Hd; congruence | reflexivity].
Qed.

(** C8. For every URL and every present (non-empty) proxy URL,
    [__get_request] sends one GET whose proxy map has that URL under both
    [http] and [https], with a timeout of 120 seconds whatever the caller
    passes; without a proxy URL the proxy map is absent and the timeout is
    the same. The caller gets what [requests.get] answers. *)
Theorem get_request_proxies_and_timeout (h : Host) (url : string)
    (stream : option bool) (m : Machine) :
  (forall proxy_url : string,
      proxy_url <> EmptyString ->
      let request := {| url := url;
                        proxies := Some (<["http" := proxy_url]>
                                           (<["https" := proxy_url]> ∅));
                        stream := stream; timeout := 120 |} in
      requests_sent (get_request h url (Some proxy_url) stream m).2
      = requests_sent m ++ [request]
      /\ (get_request h url (Some proxy_url) stream m).1 = requests_get h request)
  /\ (let request := {| url := url; proxies := None; stream := stream;
                        timeout := 120 |} in
      requests_sent (get_request h url None stream m).2
      = requests_sent m ++ [request]
      /\ (get_request h url None stream m).1 = requests_get h request).
Proof.
  split.
  - intros proxy_url Hp request. unfold get_request, set_proxy.
    apply PyStrFacts.truthy_true in Hp. rewrite Hp. fold request.
    destruct (requests_get h request); split; reflexivity.
  - intros request. unfold get_request, set_proxy. fold request.
    destruct (requests_get h request); split; reflexivity.
Qed.

(** One request through a proxy, on a host that is offline. *)
Lemma get_request_proxies_and_timeout_witness :
  let h := {| sys_platform := "win32"; ps_value := fun _ => EmptyString;
              requests_get := fun _ => inl (OtherError "ConnectionError" "offline");
              zip_entries := fun _ => None; creation_mode := 438; console_decode := Some;
              zip_read := fun _ _ => Extracts; chmod_error := fun _ => None |} in
  requests_sent
    (get_request h "https://example.org/x" (Some "http://proxy:8080")
       (Some true) (init ∅)).2
  = [ {| url := "https://example.org/x";
         proxies := Some (<["http" := "http://proxy:8080"]>
                            (<["https" := "http://proxy:8080"]> ∅));
         stream := Some true; timeout := 120 |} ].
Proof.
  intros h.
  exact (proj1 (proj1 (get_request_proxies_and_timeout h "https://example.org/x"
                         (Some true) (init ∅))
                  "http://proxy:8080" ltac:(discriminate))).
Defined.

(** ** The acquisition pipeline *)

(** Spawning the shell returns what it wrote and touches nothing but the
    logs of the commands spawned and of the expressions evaluated. *)
Lemma popen_frame (h : Host) (script_command : string) (m : Machine) :
  exists written m',
    popen h script_command m = (inr written, m')
    /\ cwd m' = cwd m /\ requests_sent m' = requests_sent m
    /\ spawned m' = spawned m ++ [script_command]
    /\ printed m' = printed m /\ _driver m' = _driver m
    /\ _file_response m' = _file_response m.
Proof. unfold popen. eexists _, _. split; [reflexivity|]. now repeat split. Qed.

(** The probe spawns one shell and nothing else, however it ends: no
    request is sent, no file is touched. *)
Lemma get_chrome_version_of_frame (h : Host) (commands : list string)
    (m m' : Machine) (r : exception + option string) :
  get_chrome_version_of h commands m = (r, m') ->
  cwd m' = cwd m /\ requests_sent m' = requests_sent m
  /\ length (spawned m') = S (length (spawned m))
  /\ printed m' = printed m /\ _driver m' = _driver m
  /\ _file_response m' = _file_response m.
Proof.
  unfold get_chrome_version_of. cbv zeta. unfold bind.
  destruct (popen_frame h (construct_powershell_commands commands) m)
    as (written & m1 & -> & Hc & Hr & Hs & Hp & Hd & Hf).
  assert (length (spawned m1) = S (length (spawned m))) as Hlen
    by (rewrite Hs, length_app; cbn [length]; lia).
  destruct (decode_cases h written m1) as [[text ->]|(msg & -> & _)];
    unfold pure; intros [= _ <-]; now repeat split.
Qed.

Lemma get_chrome_version_frame (h : Host) (m m' : Machine)
    (r : exception + option string) :
  get_chrome_version h m = (r, m') ->
  cwd m' = cwd m /\ requests_sent m' = requests_sent m
  /\ length (spawned m') = S (length (spawned m))
  /\ printed m' = printed m /\ _driver m' = _driver m
  /\ _file_response m' = _file_response m.
Proof. exact (get_chrome_version_of_frame h COMMANDS m m' r). Qed.

(** No command of the table holds a semicolon. *)
Lemma COMMANDS_single_expressions :
  Forall (fun e => PowerShell.occurs ";" e = false) COMMANDS.
Proof. unfold COMMANDS. repeat constructor. Qed.

(** What [re.search(r"^\d+", v).group()] returns is the leading run of
    digits of [v]: a non-empty prefix made of digits, followed by something
    that does not start with a digit. *)
Lemma re_search_leading_digits_group_run (v : string) (m : Machine) :
  PyStr.starts_with_digit v = true ->
  exists digits rest,
    re_search_leading_digits_group (Some v) m = (inr digits, m)
    /\ v = digits +:+ rest
    /\ PyStr.all_digits digits = true
    /\ digits <> EmptyString
    /\ PyStr.starts_with_digit rest = false.
Proof.
  intros Hv. unfold re_search_leading_digits_group.
  pose proof (PyStrFacts.span_isdigit_empty v) as Hempty.
  rewrite Hv in Hempty. simpl in Hempty. rewrite Hempty.
  destruct (PyStrFacts.span_split PyStr.isdigit v) as (rest & Hsplit & Hrest).
  exists (PyStr.span PyStr.isdigit v), rest. repeat split.
  - exact Hsplit.
  - apply PyStrFacts.span_isdigit_all_digits.
  - intros Heq. apply PyStrFacts.is_empty_true in Heq. congruence.
  - destruct rest; [reflexivity | exact Hrest].
Qed.

Lemma re_search_leading_digits_group_no_match (v : string) (m : Machine) :
  PyStr.starts_with_digit v = false ->
  re_search_leading_digits_group (Some v) m
  = (inl (AttributeError "'NoneType' object has no attribute 'group'"), m).
Proof.
  intros Hv. unfold re_search_leading_digits_group.
  pose proof (PyStrFacts.span_isdigit_empty v) as Hempty.
  rewrite Hv in Hempty. simpl in Hempty. now rewrite Hempty.
Qed.

Lemma re_search_leading_digits_group_returns (v : string) (m : Machine) :
  PyStr.starts_with_digit v = true ->
  re_search_leading_digits_group (Some v) m
  = (inr (PyStr.span PyStr.isdigit v), m).
Proof.
  intros Hv. unfold re_search_leading_digits_group.
  pose proof (PyStrFacts.span_isdigit_empty v) as Hempty.
  rewrite Hv in Hempty. simpl in Hempty. now rewrite Hempty.
Qed.

(** C4. The major version is the leading run of decimal digits of the
    version string: ["119"] for ["119.0.6045.105"], and in general a
    non-empty prefix of digits that no digit follows; for every version
    string that does not start with a digit the extraction raises (the
    malformed version surfaces as the [AttributeError] of [.group()] on no
    match), and the pipeline stops there, before any request. *)
Theorem major_version_is_leading_digits :
  (forall m : Machine,
      re_search_leading_digits_group (Some "119.0.6045.105") m = (inr "119", m))
  /\ (forall (v : string) (m : Machine),
         PyStr.starts_with_digit v = true ->
         exists digits rest,
           re_search_leading_digits_group (Some v) m = (inr digits, m)
           /\ v = digits +:+ rest
           /\ PyStr.all_digits digits = true
           /\ digits <> EmptyString
           /\ PyStr.starts_with_digit rest = false)
  /\ (forall (v : string) (m : Machine),
         PyStr.starts_with_digit v = false ->
         exists msg,
           re_search_leading_digits_group (Some v) m = (inl (AttributeError msg), m))
  /\ (forall (h : Host) (proxy_url : option string) (m m' : Machine) (v : string),
         get_chrome_version h m = (inr (Some v), m') ->
         PyStr.starts_with_digit v = false ->
         exists msg,
           download_chrome_web_driver h proxy_url m = (inl (AttributeError msg), m')
           /\ requests_sent m' = requests_sent m).
Proof.
  split; [reflexivity|]. split; [|split].
  - intros v m Hv. now apply re_search_leading_digits_group_run.
  - intros v m Hv. eexists. now apply re_search_leading_digits_group_no_match.
  - intros h proxy_url m m' v Hprobe Hv. eexists. split.
    + unfold download_chrome_web_driver.
      rewrite (bind_returns _ _ _ _ _ Hprobe).
      apply bind_raises. now apply re_search_leading_digits_group_no_match.
    + now apply get_chrome_version_frame in Hprobe as (_ & Hreq & _).
Qed.

(** A host whose Chrome reports a version that starts with a letter. *)
Lemma major_version_is_leading_digits_witness :
  let h := {| sys_platform := "win32"; ps_value := fun _ => "v119.0.6045.105";
              requests_get := fun _ => inl (OtherError "ConnectionError" "offline");
              zip_entries := fun _ => None; creation_mode := 438; console_decode := Some;
              zip_read := fun _ _ => Extracts; chmod_error := fun _ => None |} in
  exists msg,
    download_chrome_web_driver h None (init ∅)
    = (inl (AttributeError msg), (get_chrome_version h (init ∅)).2)
    /\ requests_sent (get_chrome_version h (init ∅)).2 = [].
Proof.
  intros h.
  exact (proj2 (proj2 (proj2 major_version_is_leading_digits)) h None (init ∅)
           (get_chrome_version h (init ∅)).2 "v119.0.6045.105"
           ltac:(vm_compute; reflexivity) eq_refl).
Defined.

(** [get_request] when [requests.get] raises and when it answers. *)
Lemma get_request_raises (h : Host) (url : string) (proxy_url : option string)
    (_stream : option bool) (m : Machine) (e : exception) :
  requests_get h {| url := url; proxies := set_proxy proxy_url;
                    stream := _stream; timeout := 120 |} = inl e ->
  exists m',
    get_request h url proxy_url _stream m = (inl e, m')
    /\ requests_sent m' = requests_sent m
                          ++ [{| url := url; proxies := set_proxy proxy_url;
                                 stream := _stream; timeout := 120 |}]
    /\ cwd m' = cwd m /\ _driver m' = _driver m
    /\ _file_response m' = _file_response m.
Proof.
  intros Hget. unfold get_request. rewrite Hget. eexists.
  split; [reflexivity|]. repeat split.
Qed.

Lemma get_request_answers (h : Host) (url : string) (proxy_url : option string)
    (_stream : option bool) (m : Machine) (response : Response) :
  requests_get h {| url := url; proxies := set_proxy proxy_url;
                    stream := _stream; timeout := 120 |} = inr response ->
  exists m',
    get_request h url proxy_url _stream m = (inr response, m')
    /\ requests_sent m' = requests_sent m
                          ++ [{| url := url; proxies := set_proxy proxy_url;
                                 stream := _stream; timeout := 120 |}]
    /\ cwd m' = cwd m /\ _driver m' = _driver m
    /\ _file_response m' = _file_response m.
Proof.
  intros Hget. unfold get_request. rewrite Hget. eexists.
  split; [reflexivity|]. repeat split.
Qed.

(** On a host where the first command of the table has a value that
    decodes, the probe returns it, stripped. *)
Lemma get_chrome_version_first_command (h : Host) (m : Machine) :
  let v := ps_value h (hd EmptyString COMMANDS) in
  v <> EmptyString ->
  console_decode h (v +:+ PyStr.crlf) = Some (v +:+ PyStr.crlf) ->
  exists m',
    get_chrome_version h m = (inr (Some (PyStr.strip v)), m')
    /\ requests_sent m' = requests_sent m.
Proof.
  intros v Hv Hdecode.
  destruct (get_chrome_version_of_first_hit h [] (tl COMMANDS)
              (hd EmptyString COMMANDS) m COMMANDS_single_expressions
              ltac:(constructor) Hv Hdecode)
    as (m' & Hrun & _ & _ & Hreq & _).
  exists m'. split; [exact Hrun | exact Hreq].
Qed.

(** C5. When the probe returns [None], which is what it returns when no
    version is found, [__download_chrome_web_driver] does not report it: it
    goes on to derive the major version and hands [None] to [re.search],
    whose [TypeError] leaves the pipeline. No request is sent and no file is
    written. The error is not one of its own: a pipeline that found a
    version can end with the same exception, after a request. *)
Theorem version_not_found_raises_TypeError_of_re_search (h : Host)
    (proxy_url : option string) (m m' : Machine) :
  get_chrome_version h m = (inr None, m') ->
  download_chrome_web_driver h proxy_url m
  = (inl (TypeError "expected string or bytes-like object"), m')
  /\ re_search_leading_digits_group None m'
     = (inl (TypeError "expected string or bytes-like object"), m')
  /\ requests_sent m' = requests_sent m
  /\ cwd m' = cwd m
  /\ _driver m' = _driver m
  /\ exists (h' : Host) (v : string) (m1 m2 : Machine),
       get_chrome_version h' m = (inr (Some v), m1)
       /\ download_chrome_web_driver h' proxy_url m
          = (inl (TypeError "expected string or bytes-like object"), m2)
       /\ length (requests_sent m2) = S (length (requests_sent m)).
Proof.
  intros Hprobe.
  apply get_chrome_version_frame in Hprobe as Hframe.
  destruct Hframe as (Hcwd & Hreq & _ & _ & Hdrv & _).
  split; [|split; [reflexivity|]; split; [exact Hreq|]; split; [exact Hcwd|];
           split; [exact Hdrv|]].
  - unfold download_chrome_web_driver. rewrite (bind_returns _ _ _ _ _ Hprobe).
    apply bind_raises. reflexivity.
  - set (h' := {| sys_platform := "win32";
                  ps_value := fun _ => "119.0.6045.105";
                  requests_get := fun _ =>
                    inl (TypeError "expected string or bytes-like object");
                  zip_entries := fun _ => None; creation_mode := 438;
                  console_decode := Some; zip_read := fun _ _ => Extracts;
                  chmod_error := fun _ => None |}).
    destruct (get_chrome_version_first_command h' m ltac:(discriminate) eq_refl)
      as (m1 & Hrun & Hreq1).
    change (PyStr.strip (ps_value h' (hd EmptyString COMMANDS)))
      with "119.0.6045.105" in Hrun.
    destruct (get_request_raises h'
                ("https://chromedriver.storage.googleapis.com"
                 +:+ "/LATEST_RELEASE_" +:+ "119") proxy_url None m1
                (TypeError "expected string or bytes-like object") eq_refl)
      as (m2 & Hget & Hreq2 & _).
    exists h', "119.0.6045.105", m1, m2. split; [exact Hrun|]. split.
    + unfold download_chrome_web_driver. rewrite (bind_returns _ _ _ _ _ Hrun).
      rewrite (bind_returns _ _ _ _ _
                 (re_search_leading_digits_group_returns "119.0.6045.105" m1
                    eq_refl)).
      apply bind_raises. exact Hget.
    + rewrite Hreq2, Hreq1, length_app. cbn [length]. lia.
Qed.

(** A Windows host without Chrome: no command of the table has a value. *)
Lemma version_not_found_raises_TypeError_of_re_search_witness :
  let h := {| sys_platform := "win32"; ps_value := fun _ => EmptyString;
              requests_get := fun _ => inl (OtherError "ConnectionError" "offline");
              zip_entries := fun _ => None; creation_mode := 438; console_decode := Some;
              zip_read := fun _ _ => Extracts; chmod_error := fun _ => None |} in
  get_chrome_version h (init ∅)
  = (inr None, (get_chrome_version h (init ∅)).2)
  /\ setup_chrome_web_driver h None (init ∅)
     = (inl (TypeError "expected string or bytes-like object"),
        (get_chrome_version h (init ∅)).2)
  /\ requests_sent (get_chrome_version h (init ∅)).2 = [].
Proof.
  intros h.
  assert (get_chrome_version h (init ∅)
          = (inr None, (get_chrome_version h (init ∅)).2)) as Hprobe
    by (vm_compute; reflexivity).
  destruct (version_not_found_raises_TypeError_of_re_search h None (init ∅)
              (get_chrome_version h (init ∅)).2 Hprobe)
    as (Hrun & _ & Hreq & _).
  split; [exact Hprobe|]. split; [exact Hrun | exact Hreq].
Defined.

(** C7. On a host whose platform is not [win32], [setup_chrome_web_driver]
    prints the diagnostic and leaves through [sys.exit(0)]: no shell is
    spawned, no request is sent, no file is written. *)
Theorem setup_unsupported_host_exits_0 (h : Host) (proxy_url : option string)
    (m : Machine) :
  sys_platform h <> "win32" ->
  exists m',
    setup_chrome_web_driver h proxy_url m = (inl (SystemExit 0), m')
    /\ printed m' = printed m ++ ["System does not meet the requirements"]
    /\ requests_sent m' = requests_sent m
    /\ spawned m' = spawned m
    /\ cwd m' = cwd m.
Proof.
  intros Hplatform. unfold setup_chrome_web_driver, system_requirements.
  apply String.eqb_neq in Hplatform. rewrite Hplatform.
  eexists. split; [reflexivity|]. simpl. auto.
Qed.

(** Setup on Linux, through a proxy. *)
Lemma setup_unsupported_host_exits_0_witness :
  let h := {| sys_platform := "linux"; ps_value := fun _ => "119.0.6045.105";
              requests_get := fun _ => inr {| status_code := 200; text := "119.0.6045.105";
                                              content := [] |};
              zip_entries := fun _ => None; creation_mode := 438; console_decode := Some;
              zip_read := fun _ _ => Extracts; chmod_error := fun _ => None |} in
  exists m',
    setup_chrome_web_driver h (Some "http://proxy:8080") (init ∅)
    = (inl (SystemExit 0), m')
    /\ requests_sent m' = [].
Proof.
  intros h.
  destruct (setup_unsupported_host_exits_0 h (Some "http://proxy:8080") (init ∅)
              ltac:(discriminate))
    as (m' & Hrun & _ & Hreq & _).
  exists m'. split; [exact Hrun | exact Hreq].
Defined.

(** What the last two steps do to a machine that holds a response. *)
Lemma extract_zip_returns (h : Host) (m m' : Machine) :
  extract_zip h m = (inr tt, m') ->
  _driver m' = Some "chromedriver.exe"
  /\ _file_response m' = _file_response m
  /\ exists response archive bytes bits,
       _file_response m = Some response
       /\ zip_entries h (content response) = Some archive
       /\ archive !! "chromedriver.exe" = Some bytes
       /\ cwd m' = <["chromedriver.exe" := {| data := bytes; mode := bits |}]> (cwd m).
Proof.
  unfold extract_zip, bind, modify. simpl.
  destruct (_file_response m) as [response|]; [|discriminate].
  destruct (zip_entries h (content response)) as [archive|] eqn:Hzip;
    [|discriminate].
  destruct (archive !! "chromedriver.exe") as [bytes|] eqn:Hentry; [|discriminate].
  destruct (zip_read h (content response) "chromedriver.exe");
    [|discriminate..].
  intros [= <-]. simpl. split; [reflexivity|]. split; [reflexivity|].
  eexists response, archive, bytes, _.
  repeat split; try reflexivity; assumption.
Qed.

Lemma set_execusion_permission_returns (h : Host) (m m' : Machine) :
  set_execusion_permission h m = (inr tt, m') ->
  exists path f,
    _driver m = Some path /\ cwd m !! path = Some f
    /\ _driver m' = Some path
    /\ _file_response m' = _file_response m
    /\ cwd m' = <[path := {| data := data f; mode := 493 |}]> (cwd m).
Proof.
  unfold set_execusion_permission, os_chmod.
  destruct (_driver m) as [path|]; [|discriminate].
  destruct (cwd m !! path) as [f|] eqn:Hf; [|discriminate].
  destruct (chmod_error h path); [discriminate|].
  intros [= <-]. simpl. now exists path, f.
Qed.

(** C10. After every acquisition that returns, the driver attribute is
    ["chromedriver.exe"], whatever version the probe found and whatever
    release the server named; the working directory has a file of that name
    holding the archive's entry of that name, and its permission bits are
    0o755: 7 for the owner, 5 for the group, 5 for the others, nothing
    above. *)
Theorem acquired_driver_is_chromedriver_exe_0o755 (h : Host)
    (proxy_url : option string) (m m' : Machine) :
  setup_chrome_web_driver h proxy_url m = (inr tt, m') ->
  _driver m' = Some "chromedriver.exe"
  /\ exists f response archive,
       cwd m' !! "chromedriver.exe" = Some f
       /\ _file_response m' = Some response
       /\ zip_entries h (content response) = Some archive
       /\ archive !! "chromedriver.exe" = Some (data f)
       /\ mode f = 493
       /\ Z.land (Z.shiftr (mode f) 6) 7 = 7
       /\ Z.land (Z.shiftr (mode f) 3) 7 = 5
       /\ Z.land (mode f) 7 = 5
       /\ Z.shiftr (mode f) 9 = 0.
Proof.
  unfold setup_chrome_web_driver.
  destruct (system_requirements h); [|discriminate].
  unfold download_chrome_web_driver. intros Hrun.
  apply bind_inr in Hrun as (version & m1 & _ & Hrun).
  apply bind_inr in Hrun as (major_version & m2 & _ & Hrun).
  apply bind_inr in Hrun as (latest & m3 & _ & Hrun).
  apply bind_inr in Hrun as (file_response & m4 & _ & Hrun).
  apply bind_inr in Hrun as ([] & m5 & Hstore & Hrun).
  apply bind_inr in Hrun as ([] & m6 & Hextract & Hchmod).
  apply extract_zip_returns in Hextract
    as (Hdriver & Hkept & response & archive & bytes & bits & Hresp & Hzip
        & Hentry & Hcwd).
  apply set_execusion_permission_returns in Hchmod
    as (path & f & Hpath & Hf & Hdriver' & Hkept' & Hcwd').
  assert (path = "chromedriver.exe") as -> by congruence.
  split; [exact Hdriver'|].
  rewrite Hcwd, lookup_insert_eq in Hf. injection Hf as <-.
  exists {| data := bytes; mode := 493 |}, response, archive.
  rewrite Hcwd', lookup_insert_eq. simpl.
  repeat split; try reflexivity; try assumption. congruence.
Qed.

(** A host with Chrome 119, a server that answers, and an archive that
    holds the driver. *)
Lemma acquired_driver_is_chromedriver_exe_0o755_witness :
  let h := {| sys_platform := "win32"; ps_value := fun _ => "119.0.6045.105";
              requests_get := fun _ =>
                inr {| status_code := 200; text := "119.0.6045.35";
                       content := [Byte.x50; Byte.x4b] |};
              zip_entries := fun _ => Some {[ "chromedriver.exe" := [Byte.x4d; Byte.x5a] ]};
              creation_mode := 438; console_decode := Some;
              zip_read := fun _ _ => Extracts; chmod_error := fun _ => None |} in
  exists f,
    cwd (setup_chrome_web_driver h None (init ∅)).2 !! "chromedriver.exe" = Some f
    /\ mode f = 493.
Proof.
  intros h.
  destruct (acquired_driver_is_chromedriver_exe_0o755 h None (init ∅)
              (setup_chrome_web_driver h None (init ∅)).2)
    as (_ & f & _ & _ & Hf & _ & _ & _ & Hmode & _).
  - vm_compute. reflexivity.
  - exists f. split; [exact Hf | exact Hmode].
Defined.

(** ** The bounded wait *)

Lemma second_pos : 0 < second.
Proof. reflexivity. Qed.

Lemma int_seconds_whole (k : Z) : int_seconds (k * second) = k.
Proof. unfold int_seconds. apply Z.quot_mul. discriminate. Qed.

Lemma int_seconds_0 : int_seconds 0 = 0.
Proof. reflexivity. Qed.

(** A second more on the clock is at least a whole second more. *)
Lemma int_seconds_next (t d : Z) :
  0 <= t -> 0 <= d -> int_seconds t + 1 <= int_seconds (t + d + second).
Proof.
  intros Ht Hd. unfold int_seconds. pose proof second_pos as Hs.
  rewrite !Z.quot_div_nonneg by lia.
  replace (t + d + second) with ((t + d) + 1 * second) by lia.
  rewrite Z.div_add by lia.
  assert (t / second <= (t + d) / second) by (apply Z.div_le_mono; lia). lia.
Qed.

(** The whole seconds of a time that is not negative do not exceed it. *)
Lemma int_seconds_le (t : Z) : 0 <= t -> int_seconds t * second <= t.
Proof.
  intros Ht. unfold int_seconds. pose proof second_pos as Hs.
  rewrite Z.quot_div_nonneg by lia.
  pose proof (Z.mul_div_le t second Hs). lia.
Qed.

(** One attempt advances the clock by the time the call takes, if a call
    is made, and never sleeps. *)
Lemma try_find_element_session (driver : WebDriver) (element_by element : string)
    (found : option bool) (s : Session) :
  let s' := (try_find_element driver element_by element found s).2 in
  now s <= now s' /\ slept s' = slept s
  /\ (calls s <= calls s' <= S (calls s))%nat.
Proof.
  unfold try_find_element.
  destruct (element_dict !! element_by) as [by_|]; simpl;
    [|repeat split; lia].
  destruct (find_element driver (calls s) by_ element) as [[el|]|e]; simpl;
    try destruct (is_ElementNotFound e); simpl; repeat split; lia.
Qed.

(** More fuel does not change a result. *)
Lemma polling_more_fuel (fuel : nat) (driver : WebDriver)
    (element_by element : string) (wait_time found_wait_time start_time : Z)
    (found : option bool) (s : Session) (r : completion * Session) :
  polling fuel driver element_by element wait_time found_wait_time start_time
    found s = Some r ->
  polling (S fuel) driver element_by element wait_time found_wait_time
    start_time found s = Some r.
Proof.
  revert found s. induction fuel as [|fuel IH]; intros found s; [discriminate|].
  intros H. simpl in H. cbn [polling].
  destruct (wait_time <=? _); [exact H|].
  destruct (try_find_element _ _ _ _ _) as [[e|[[|]|]] s']; try exact H.
  now apply IH.
Qed.

(** The loop is left: with the clock at or after [start_time], a fuel
    above the number of whole seconds still to go is enough. *)
Lemma polling_total (fuel : nat) (driver : WebDriver)
    (element_by element : string) (wait_time found_wait_time start_time : Z)
    (found : option bool) (s : Session) :
  start_time <= now s ->
  (Z.to_nat (wait_time - int_seconds (now s - start_time)) < fuel)%nat ->
  is_Some (polling fuel driver element_by element wait_time found_wait_time
             start_time found s).
Proof.
  revert found s. induction fuel as [|fuel IH]; intros found s Hstart Hfuel; [lia|].
  cbn [polling]. unfold time_time.
  destruct (wait_time <=? int_seconds (now s - start_time)) eqn:Hcheck; [eauto|].
  apply Z.leb_gt in Hcheck.
  pose proof (try_find_element_session driver element_by element found s) as Hs.
  destruct (try_find_element _ _ _ _ _) as [[e|[[|]|]] s']; eauto.
  simpl in Hs. destruct Hs as (Hnow & _ & _).
  apply IH; simpl.
  - pose proof second_pos. lia.
  - pose proof (int_seconds_next (now s - start_time) (now s' - now s)
                  ltac:(lia) ltac:(lia)) as Hnext.
    replace (now s' + 1 * second - start_time)
      with (now s - start_time + (now s' - now s) + second) by lia.
    lia.
Qed.

(** What leaves the [try] is never the module's own exception. *)
Lemma try_find_element_raises (driver : WebDriver) (element_by element : string)
    (found : option bool) (s s' : Session) (e : exception) :
  try_find_element driver element_by element found s = (inl e, s') ->
  is_ElementNotFound e = false.
Proof.
  unfold try_find_element.
  destruct (element_dict !! element_by) as [by_|]; [|now intros [= <- _]].
  destruct (find_element driver (calls s) by_ element) as [[el|]|e'];
    try discriminate.
  destruct (is_ElementNotFound e') eqn:Hclass; [discriminate|].
  now intros [= <- _].
Qed.

(** Whatever the driver does and however long its calls take, an
    [ElementNotFound] that leaves the loop is the timeout, with its message,
    and the budget has elapsed in full by then. *)
Lemma polling_timeout_not_early (fuel : nat) (driver : WebDriver)
    (element_by element : string) (wait_time found_wait_time start_time : Z)
    (found : option bool) (s s' : Session) (msg : string) :
  start_time <= now s ->
  polling fuel driver element_by element wait_time found_wait_time start_time
    found s = Some (Raised (ElementNotFound msg), s') ->
  msg = not_found_message element
  /\ wait_time * second <= now s' - start_time.
Proof.
  revert found s. induction fuel as [|fuel IH]; intros found s Hstart; [discriminate|].
  cbn [polling]. unfold time_time.
  destruct (wait_time <=? int_seconds (now s - start_time)) eqn:Hcheck.
  - intros [= <- <-]. split; [reflexivity|].
    apply Z.leb_le in Hcheck.
    pose proof (int_seconds_le (now s - start_time) ltac:(lia)).
    pose proof second_pos. nia.
  - pose proof (try_find_element_session driver element_by element found s) as Hs.
    destruct (try_find_element _ _ _ _ _) as [[e|[[|]|]] s1] eqn:Htry;
      try discriminate.
    + intros [= -> <-]. apply try_find_element_raises in Htry. discriminate.
    + simpl in Hs. destruct Hs as (Hnow & _ & _). apply IH. simpl.
      pose proof second_pos. lia.
Qed.

(** [wait_until_element_is_visible] always ends, by returning or by
    raising. *)
Lemma wait_until_element_is_visible_total (driver : WebDriver)
    (element_by element : string) (default_time : option Z) (s : Session) :
  is_Some (wait_until_element_is_visible driver element_by element default_time s).
Proof.
  unfold wait_until_element_is_visible. apply polling_total; unfold time_time.
  - lia.
  - rewrite Z.sub_diag, int_seconds_0, Z.sub_0_r. lia.
Qed.

(** The timeout of [wait_until_element_is_visible] never comes before the
    budget has elapsed, for any driver. *)
Lemma wait_until_element_is_visible_timeout_not_early (driver : WebDriver)
    (element_by element : string) (wait_time : Z) (s s' : Session)
    (msg : string) :
  wait_until_element_is_visible driver element_by element (Some wait_time) s
  = Some (Raised (ElementNotFound msg), s') ->
  msg = not_found_message element /\ wait_time * second <= elapsed s s'.
Proof.
  unfold wait_until_element_is_visible, elapsed, time_time.
  apply polling_timeout_not_early. lia.
Qed.

Lemma Session_eq (s : Session) (t : Z) (c : nat) (l : list Z) :
  now s = t -> calls s = c -> slept s = l ->
  s = {| now := t; calls := c; slept := l |}.
Proof. destruct s; simpl; congruence. Qed.

(** [k] attempts in a row that raise [ElementNotFound], each in no time,
    starting a whole number [i] of seconds after the start with the budget
    at least [k] seconds further: each is absorbed and followed by a sleep
    of one second, and the loop goes on [k] seconds later. *)
Lemma polling_absorbs (k fuel : nat) (driver : WebDriver)
    (element_by element : string) (by_ : By)
    (wait_time found_wait_time start_time : Z) :
  element_dict !! element_by = Some by_ ->
  forall (found : option bool) (s : Session) (i : Z),
    now s = start_time + i * second ->
    0 <= i ->
    ((0 < k)%nat -> i + Z.of_nat k <= wait_time) ->
    (forall j, (j < k)%nat ->
       exists msg, find_element driver (calls s + j) by_ element
                   = Raises (ElementNotFound msg)) ->
    (forall j, (j < k)%nat -> find_element_time driver (calls s + j) = 0%N) ->
    exists found',
      polling (k + fuel) driver element_by element wait_time found_wait_time
        start_time found s
      = polling fuel driver element_by element wait_time found_wait_time
          start_time found'
          {| now := now s + Z.of_nat k * second; calls := calls s + k;
             slept := slept s ++ replicate k 1 |}.
Proof.
  intros Hby. induction k as [|k IH]; intros found s i Hnow Hi Hbudget Hfail Htime.
  - exists found. simpl. f_equal.
    apply Session_eq; [lia | lia | now rewrite app_nil_r].
  - change (S k + fuel)%nat with (S (k + fuel)). cbn [polling]. unfold time_time.
    replace (now s - start_time) with (i * second) by lia.
    rewrite int_seconds_whole.
    destruct (wait_time <=? i) eqn:Hcheck; [apply Z.leb_le in Hcheck; lia|].
    unfold try_find_element. rewrite Hby.
    destruct (Hfail 0%nat ltac:(lia)) as [msg Hmsg].
    rewrite Nat.add_0_r in Hmsg. rewrite Hmsg. simpl is_ElementNotFound. cbv iota.
    pose proof (Htime 0%nat ltac:(lia)) as Ht. rewrite Nat.add_0_r in Ht.
    rewrite Ht.
    destruct (IH (Some false)
                (time_sleep 1 {| now := now s + Z.of_N 0; calls := S (calls s);
                                 slept := slept s |})
                (i + 1)) as [found' Hrun].
    + simpl. lia.
    + lia.
    + lia.
    + intros j Hj. simpl. destruct (Hfail (S j) ltac:(lia)) as [msg' Hmsg'].
      exists msg'. now replace (S (calls s + j)) with (calls s + S j)%nat by lia.
    + intros j Hj. simpl.
      replace (S (calls s + j)) with (calls s + S j)%nat by lia.
      apply Htime. lia.
    + exists found'. rewrite Hrun. f_equal. simpl.
      apply Session_eq; simpl; [lia | lia |].
      now rewrite <- app_assoc.
Qed.

(** The message of the timeout carries the locator target as it was
    passed. *)
Lemma not_found_message_contains (element : string) :
  PyStr.contains (not_found_message element) element.
Proof.
  exists "The element - ", " not found within the limited time!". reflexivity.
Qed.

(** C9. With a budget of zero or less the first elapsed-time check already
    fails: [ElementNotFound] is raised with the session as it was, so no
    call of [find_element] was made, nothing was slept and no time passed,
    whatever the driver and the strategy name are. *)
Theorem non_positive_budget_raises_before_locating (driver : WebDriver)
    (element_by element : string) (wait_time : Z) (s : Session) :
  wait_time <= 0 ->
  wait_until_element_is_visible driver element_by element (Some wait_time) s
  = Some (Raised (ElementNotFound (not_found_message element)), s).
Proof.
  intros Hbudget. unfold wait_until_element_is_visible. cbn [polling].
  unfold time_time. rewrite Z.sub_diag, int_seconds_0.
  apply Z.leb_le in Hbudget. now rewrite Hbudget.
Qed.

(** [default_time = 0] with a driver that would find the element at once. *)
Lemma non_positive_budget_raises_before_locating_witness :
  let driver := {| find_element := fun _ _ _ => Returns (Some {| element_id := "e1" |});
                   find_element_time := fun _ => 0%N |} in
  let s := {| now := 1700000000 * second; calls := 0; slept := [] |} in
  wait_until_element_is_visible driver "ID" "submit" (Some 0) s
  = Some (Raised (ElementNotFound "The element - submit not found within the limited time!"), s).
Proof.
  intros driver s.
  exact (non_positive_budget_raises_before_locating driver "ID" "submit" 0 s
           ltac:(lia)).
Defined.

(** C1, what the code does. When the first call of [find_element] raises
    an exception of another class than the module's own [ElementNotFound],
    as Selenium's [NoSuchElementException] is, [except ElementNotFound] does
    not match: the exception leaves [wait_until_element_is_visible] after
    that one call, without any sleep and without another attempt. *)
Theorem locate_failure_of_other_class_propagates (driver : WebDriver)
    (element_by element : string) (by_ : By) (wait_time : Z) (s : Session)
    (e : exception) :
  element_dict !! element_by = Some by_ ->
  0 < wait_time ->
  find_element driver (calls s) by_ element = Raises e ->
  is_ElementNotFound e = false ->
  wait_until_element_is_visible driver element_by element (Some wait_time) s
  = Some (Raised e,
          {| now := now s + Z.of_N (find_element_time driver (calls s));
             calls := S (calls s); slept := slept s |}).
Proof.
  intros Hby Hbudget Hraise Hclass. unfold wait_until_element_is_visible.
  cbn [polling]. unfold time_time. rewrite Z.sub_diag, int_seconds_0.
  destruct (wait_time <=? 0) eqn:Hcheck; [apply Z.leb_le in Hcheck; lia|].
  unfold try_find_element. now rewrite Hby, Hraise, Hclass.
Qed.

(** A driver that, like Selenium's, raises [NoSuchElementException] while
    the element is not there, and would find it on the third call. *)
Lemma locate_failure_of_other_class_propagates_witness :
  let driver :=
    {| find_element := fun n _ _ =>
         if (n <? 2)%nat then Raises (NoSuchElementException "no such element")
         else Returns (Some {| element_id := "e1" |});
       find_element_time := fun _ => 0%N |} in
  let s := {| now := 0; calls := 0; slept := [] |} in
  wait_until_element_is_visible driver "ID" "submit" (Some 60) s
  = Some (Raised (NoSuchElementException "no such element"),
          {| now := 0; calls := 1; slept := [] |}).
Proof.
  intros driver s.
  exact (locate_failure_of_other_class_propagates driver "ID" "submit" ID 60 s
           (NoSuchElementException "no such element")
           eq_refl ltac:(lia) eq_refl eq_refl).
Defined.

(** The second way a failed attempt leaves the loop: a first call that
    returns [None] binds nothing to [is_element_found], and reading it
    raises. *)
Lemma first_locate_returning_None_raises (driver : WebDriver)
    (element_by element : string) (by_ : By) (wait_time : Z) (s : Session) :
  element_dict !! element_by = Some by_ ->
  0 < wait_time ->
  find_element driver (calls s) by_ element = Returns None ->
  wait_until_element_is_visible driver element_by element (Some wait_time) s
  = Some (Raised (UnboundLocalError "is_element_found"),
          {| now := now s + Z.of_N (find_element_time driver (calls s));
             calls := S (calls s); slept := slept s |}).
Proof.
  intros Hby Hbudget Hnone. unfold wait_until_element_is_visible.
  cbn [polling]. unfold time_time. rewrite Z.sub_diag, int_seconds_0.
  destruct (wait_time <=? 0) eqn:Hcheck; [apply Z.leb_le in Hcheck; lia|].
  unfold try_find_element. now rewrite Hby, Hnone.
Qed.

(** C2, as the code has it. With a driver whose [find_element] always
    raises the module's [ElementNotFound], in no time on the clock, the wait
    raises [ElementNotFound] after as many attempts, each followed by a sleep
    of one second, as the budget has seconds: the elapsed time is the budget,
    or zero for a negative budget. For a budget [N >= 0] that is at least [N]
    seconds and less than [N + 1]. The message contains the locator target. *)
Theorem always_not_found_times_out_at_budget (driver : WebDriver)
    (element_by element : string) (by_ : By) (wait_time : Z) (s : Session) :
  element_dict !! element_by = Some by_ ->
  (forall n, exists msg,
      find_element driver n by_ element = Raises (ElementNotFound msg)) ->
  (forall n, find_element_time driver n = 0%N) ->
  exists s',
    wait_until_element_is_visible driver element_by element (Some wait_time) s
    = Some (Raised (ElementNotFound (not_found_message element)), s')
    /\ elapsed s s' = Z.max wait_time 0 * second
    /\ (0 <= wait_time ->
        wait_time * second <= elapsed s s' < (wait_time + 1) * second)
    /\ calls s' = (calls s + Z.to_nat wait_time)%nat
    /\ slept s' = slept s ++ replicate (Z.to_nat wait_time) 1
    /\ PyStr.contains (not_found_message element) element.
Proof.
  intros Hby Hfail Htime. unfold wait_until_element_is_visible, time_time.
  replace (S (Z.to_nat wait_time)) with (Z.to_nat wait_time + 1)%nat by lia.
  destruct (polling_absorbs (Z.to_nat wait_time) 1 driver element_by element by_
              wait_time 1 (now s) Hby None s 0
              ltac:(lia) ltac:(lia) ltac:(lia)
              (fun j _ => Hfail (calls s + j)%nat)
              (fun j _ => Htime (calls s + j)%nat))
    as [found' Hrun].
  rewrite Hrun. cbn [polling]. unfold time_time. cbn [now].
  replace (now s + Z.of_nat (Z.to_nat wait_time) * second - now s)
    with (Z.of_nat (Z.to_nat wait_time) * second) by lia.
  rewrite int_seconds_whole.
  destruct (wait_time <=? Z.of_nat (Z.to_nat wait_time)) eqn:Hcheck;
    [|apply Z.leb_gt in Hcheck; lia].
  eexists. split; [reflexivity|]. unfold elapsed. cbn [now calls slept].
  pose proof second_pos.
  repeat split; try reflexivity; try nia.
  apply not_found_message_contains.
Qed.

(** A budget of two seconds: two attempts, two sleeps, two seconds. *)
Lemma always_not_found_times_out_at_budget_witness :
  let driver := {| find_element := fun _ _ _ => Raises (ElementNotFound "no such element");
                   find_element_time := fun _ => 0%N |} in
  let s := {| now := 0; calls := 0; slept := [] |} in
  exists s',
    wait_until_element_is_visible driver "XPath" "//button" (Some 2) s
    = Some (Raised (ElementNotFound "The element - //button not found within the limited time!"), s')
    /\ elapsed s s' = 2 * second
    /\ calls s' = 2%nat.
Proof.
  intros driver s.
  destruct (always_not_found_times_out_at_budget driver "XPath" "//button" XPATH
              2 s eq_refl)
    as (s' & Hrun & Helapsed & _ & Hcalls & _).
  - intros n. now exists "no such element".
  - reflexivity.
  - exists s'. split; [exact Hrun|]. split; [exact Helapsed | exact Hcalls].
Defined.

(** C2, as it is stated, at the budget [-1]: the wait raises at once, and
    zero seconds elapsed is not less than [-1 + 1] seconds. *)
Lemma always_not_found_negative_budget_counterexample :
  let driver := {| find_element := fun _ _ _ => Raises (ElementNotFound "no such element");
                   find_element_time := fun _ => 0%N |} in
  let s := {| now := 0; calls := 0; slept := [] |} in
  ~ (exists msg s',
        wait_until_element_is_visible driver "XPath" "//button" (Some (-1)) s
        = Some (Raised (ElementNotFound msg), s')
        /\ -1 * second <= elapsed s s' < (-1 + 1) * second).
Proof.
  intros driver s (msg & s' & Hrun & Hlow & Hhigh).
  vm_compute in Hrun. injection Hrun as _ <-.
  vm_compute in Hhigh. discriminate.
Qed.

(** C6, as the code has it. When the first [f] attempts raise the module's
    [ElementNotFound] and the next one, the attempt number [f + 1], returns
    an element, each in no time on the clock, and [f] seconds are less than
    the budget, the wait returns without raising: it has made [f + 1] calls
    and slept [f] polling seconds and then the settle second, so that
    [f + 1] seconds have elapsed. *)
Theorem found_after_failures_returns (f : nat) (driver : WebDriver)
    (element_by element : string) (by_ : By) (wait_time : Z) (s : Session)
    (found : WebElement) :
  element_dict !! element_by = Some by_ ->
  Z.of_nat f < wait_time ->
  (forall j, (j < f)%nat ->
     exists msg, find_element driver (calls s + j) by_ element
                 = Raises (ElementNotFound msg)) ->
  find_element driver (calls s + f) by_ element = Returns (Some found) ->
  (forall j, (j <= f)%nat -> find_element_time driver (calls s + j) = 0%N) ->
  exists s',
    wait_until_element_is_visible driver element_by element (Some wait_time) s
    = Some (Returned, s')
    /\ elapsed s s' = (Z.of_nat f + 1) * second
    /\ calls s' = (calls s + f + 1)%nat
    /\ slept s' = slept s ++ replicate f 1 ++ [1].
Proof.
  intros Hby Hbudget Hfail Hfound Htime.
  unfold wait_until_element_is_visible, time_time.
  replace (S (Z.to_nat wait_time))
    with (f + S (Z.to_nat wait_time - f))%nat by lia.
  destruct (polling_absorbs f (S (Z.to_nat wait_time - f)) driver element_by
              element by_ wait_time 1 (now s) Hby None s 0
              ltac:(lia) ltac:(lia) ltac:(lia) Hfail
              (fun j Hj => Htime j (Nat.lt_le_incl _ _ Hj)))
    as [found' Hrun].
  rewrite Hrun. cbn [polling]. unfold time_time. cbn [now].
  replace (now s + Z.of_nat f * second - now s) with (Z.of_nat f * second) by lia.
  rewrite int_seconds_whole.
  destruct (wait_time <=? Z.of_nat f) eqn:Hcheck; [apply Z.leb_le in Hcheck; lia|].
  unfold try_find_element. cbn [calls]. rewrite Hby, Hfound.
  rewrite (Htime f) by lia.
  eexists. split; [reflexivity|]. unfold elapsed, time_sleep. cbn [now calls slept].
  repeat split; try lia. now rewrite <- app_assoc.
Qed.

(** The element is found by the third call, with the default budget. *)
Lemma found_after_failures_returns_witness :
  let driver :=
    {| find_element := fun n _ _ =>
         if (n <? 2)%nat then Raises (ElementNotFound "no such element")
         else Returns (Some {| element_id := "e1" |});
       find_element_time := fun _ => 0%N |} in
  let s := {| now := 0; calls := 0; slept := [] |} in
  exists s',
    wait_until_element_is_visible driver "ID" "submit" (Some 60) s
    = Some (Returned, s')
    /\ elapsed s s' = 3 * second
    /\ slept s' = [1; 1; 1].
Proof.
  intros driver s.
  destruct (found_after_failures_returns 2 driver "ID" "submit" ID 60 s
              {| element_id := "e1" |} eq_refl)
    as (s' & Hrun & Helapsed & _ & Hslept).
  - lia.
  - intros j Hj. exists "no such element".
    destruct j as [|[|j]]; [reflexivity | reflexivity | lia].
  - reflexivity.
  - intros j Hj. reflexivity.
  - exists s'. split; [exact Hrun|]. split; [exact Helapsed | exact Hslept].
Defined.

(** C6, as it is stated, for the third attempt: the wait returns three
    seconds after its start, a whole tick away from four. *)
Lemma found_on_third_attempt_counterexample :
  let driver :=
    {| find_element := fun n _ _ =>
         if (n <? 2)%nat then Raises (ElementNotFound "no such element")
         else Returns (Some {| element_id := "e1" |});
       find_element_time := fun _ => 0%N |} in
  let s := {| now := 0; calls := 0; slept := [] |} in
  ~ (exists s',
        wait_until_element_is_visible driver "ID" "submit" None s
        = Some (Returned, s')
        /\ 4 * second - second < elapsed s s' < 4 * second + second).
Proof.
  intros driver s (s' & Hrun & Hlow & Hhigh).
  vm_compute in Hrun. injection Hrun as <-.
  vm_compute in Hlow. discriminate.
Qed.

(** * Further properties *)

(** ** The bounded wait, for any driver *)

(** The eight strategy names, as the table spells them. *)
Lemma element_dict_unknown (element_by : string) :
  element_by ∉ ["ClassName"; "CSSSelector"; "ID"; "LinkText"; "Name";
                "PartialLinkText"; "TagName"; "XPath"] ->
  element_dict !! element_by = None.
Proof. intros Hname. unfold element_dict. now apply not_elem_of_list_to_map_1. Qed.

(** X1. A strategy name that is not one of the eight keys, spelled as the
    table spells them, makes the wait raise [KeyError] with that name on its
    first iteration, whenever the budget is positive: the driver is not
    called and nothing is slept. *)
Theorem unknown_strategy_raises_KeyError (driver : WebDriver)
    (element_by element : string) (default_time : option Z) (s : Session) :
  element_by ∉ ["ClassName"; "CSSSelector"; "ID"; "LinkText"; "Name";
                "PartialLinkText"; "TagName"; "XPath"] ->
  (forall t, default_time = Some t -> 0 < t) ->
  wait_until_element_is_visible driver element_by element default_time s
  = Some (Raised (KeyError element_by), s).
Proof.
  intros Hname Hbudget. unfold wait_until_element_is_visible.
  set (wait_time := match default_time with None => 60 | Some t => t end).
  assert (0 < wait_time) as Hpos.
  { subst wait_time. destruct default_time as [t|]; [now apply Hbudget | lia]. }
  cbn [polling]. unfold time_time. rewrite Z.sub_diag, int_seconds_0.
  destruct (wait_time <=? 0) eqn:Hcheck; [apply Z.leb_le in Hcheck; lia|].
  unfold try_find_element. now rewrite (element_dict_unknown _ Hname).
Qed.

(** The lower-case spelling of a key is not a key. *)
Lemma unknown_strategy_raises_KeyError_witness :
  let driver := {| find_element := fun _ _ _ => Returns (Some {| element_id := "e1" |});
                   find_element_time := fun _ => 0%N |} in
  let s := {| now := 0; calls := 0; slept := [] |} in
  wait_until_element_is_visible driver "xpath" "//button" None s
  = Some (Raised (KeyError "xpath"), s).
Proof.
  intros driver s.
  apply (unknown_strategy_raises_KeyError driver "xpath" "//button" None s).
  - intros Hin. repeat (apply elem_of_cons in Hin as [Hin|Hin]; [discriminate|]).
    now apply elem_of_nil in Hin.
  - discriminate.
Defined.

(** X2. For any driver, however long its calls take: an
    [ElementNotFound] that leaves the wait is the timeout, one raised by the
    driver being caught; its message is the one of the timeout, with the
    locator target, and the whole budget has elapsed by then. *)
Theorem timeout_not_early (driver : WebDriver) (element_by element : string)
    (wait_time : Z) (s s' : Session) (msg : string) :
  wait_until_element_is_visible driver element_by element (Some wait_time) s
  = Some (Raised (ElementNotFound msg), s') ->
  msg = not_found_message element /\ wait_time * second <= elapsed s s'.
Proof. apply wait_until_element_is_visible_timeout_not_early. Qed.

(** A driver that is slow (0.4 s a call) and never finds the element,
    with a budget of two seconds: the timeout comes 2.8 s after the start. *)
Lemma timeout_not_early_witness :
  let driver := {| find_element := fun _ _ _ => Raises (ElementNotFound "no such element");
                   find_element_time := fun _ => 400000%N |} in
  let s := {| now := 0; calls := 0; slept := [] |} in
  let s' := {| now := 2800000; calls := 2; slept := [1; 1] |} in
  2 * second <= elapsed s s'.
Proof.
  intros driver s s'.
  exact (proj2 (timeout_not_early driver "ID" "submit" 2 s s'
                  (not_found_message "submit") eq_refl)).
Defined.

Lemma int_seconds_lt (t n : Z) : 0 <= t -> int_seconds t < n -> t < n * second.
Proof.
  intros Ht Hn. unfold int_seconds in Hn. pose proof second_pos as Hs.
  rewrite Z.quot_div_nonneg in Hn by lia.
  destruct (Z.lt_ge_cases t (n * second)) as [Hlt|Hge]; [exact Hlt|].
  assert (n <= t / second) by (apply Z.div_le_lower_bound; lia). lia.
Qed.

(** One attempt takes at most the time of one call. *)
Lemma try_find_element_now (driver : WebDriver) (element_by element : string)
    (found : option bool) (s : Session) :
  now (try_find_element driver element_by element found s).2
  <= now s + Z.of_N (find_element_time driver (calls s)).
Proof.
  unfold try_find_element.
  destruct (element_dict !! element_by) as [by_|]; simpl; [|lia].
  destruct (find_element driver (calls s) by_ element) as [[el|]|e]; simpl;
    try destruct (is_ElementNotFound e); simpl; lia.
Qed.

Lemma polling_timeout_not_late (fuel : nat) (driver : WebDriver)
    (element_by element : string) (wait_time found_wait_time start_time : Z)
    (found : option bool) (s s' : Session) (msg : string) (longest : Z) :
  (forall n, Z.of_N (find_element_time driver n) <= longest) ->
  start_time <= now s ->
  now s - start_time < Z.max wait_time 0 * second + second + longest ->
  polling fuel driver element_by element wait_time found_wait_time start_time
    found s = Some (Raised (ElementNotFound msg), s') ->
  now s' - start_time < Z.max wait_time 0 * second + second + longest.
Proof.
  intros Hlongest. revert found s.
  induction fuel as [|fuel IH]; intros found s Hstart Hbound; [discriminate|].
  cbn [polling]. unfold time_time.
  destruct (wait_time <=? int_seconds (now s - start_time)) eqn:Hcheck.
  - now intros [= _ <-].
  - apply Z.leb_gt in Hcheck.
    pose proof (try_find_element_session driver element_by element found s) as Hs.
    pose proof (try_find_element_now driver element_by element found s) as Hn.
    destruct (try_find_element _ _ _ _ _) as [[e|[[|]|]] s1] eqn:Htry;
      try discriminate.
    + intros [= -> <-]. apply try_find_element_raises in Htry. discriminate.
    + simpl in Hs, Hn. destruct Hs as (Hnow & _ & _).
      pose proof (int_seconds_lt (now s - start_time) wait_time
                    ltac:(lia) Hcheck) as Hlt.
      pose proof (Hlongest (calls s)). pose proof second_pos.
      assert (wait_time * second <= Z.max wait_time 0 * second)
        by (apply Z.mul_le_mono_nonneg_r; lia).
      apply IH; simpl; lia.
Qed.

(** X3. When no call of [find_element] takes longer than [longest]
    microseconds, the timeout comes less than one second and one such call
    after the budget (after the start, for a negative budget). *)
Theorem timeout_not_late (driver : WebDriver) (element_by element : string)
    (wait_time : Z) (s s' : Session) (msg : string) (longest : Z) :
  (forall n, Z.of_N (find_element_time driver n) <= longest) ->
  wait_until_element_is_visible driver element_by element (Some wait_time) s
  = Some (Raised (ElementNotFound msg), s') ->
  elapsed s s' < Z.max wait_time 0 * second + second + longest.
Proof.
  intros Hlongest. unfold wait_until_element_is_visible, elapsed, time_time.
  apply polling_timeout_not_late; [exact Hlongest | lia |].
  pose proof second_pos. pose proof (Hlongest 0%nat). lia.
Qed.

(** The slow driver again: 2.8 s is less than 2 s + 1 s + 0.4 s. *)
Lemma timeout_not_late_witness :
  let driver := {| find_element := fun _ _ _ => Raises (ElementNotFound "no such element");
                   find_element_time := fun _ => 400000%N |} in
  let s := {| now := 0; calls := 0; slept := [] |} in
  let s' := {| now := 2800000; calls := 2; slept := [1; 1] |} in
  elapsed s s' < 2 * second + second + 400000.
Proof.
  intros driver s s'.
  exact (timeout_not_late driver "ID" "submit" 2 s s'
           (not_found_message "submit") 400000
           ltac:(intros n; simpl; lia) eq_refl).
Defined.

(** What one attempt that binds [True] was: a call that returned an
    element, unless [True] was bound before. *)
Lemma try_find_element_true (driver : WebDriver) (element_by element : string)
    (found : option bool) (s s' : Session) :
  found <> Some true ->
  try_find_element driver element_by element found s = (inr (Some true), s') ->
  exists by_ el,
    element_dict !! element_by = Some by_
    /\ find_element driver (calls s) by_ element = Returns (Some el)
    /\ calls s' = S (calls s) /\ slept s' = slept s.
Proof.
  intros Hfound. unfold try_find_element.
  destruct (element_dict !! element_by) as [by_|]; [|discriminate].
  destruct (find_element driver (calls s) by_ element) as [[el|]|e] eqn:Hcall.
  - intros [= <-]. now exists by_, el.
  - intros [= -> _]. congruence.
  - destruct (is_ElementNotFound e); discriminate.
Qed.

(** What one attempt that binds [False] was: a call that did not return an
    element. *)
Lemma try_find_element_false (driver : WebDriver) (element_by element : string)
    (found : option bool) (s s' : Session) :
  try_find_element driver element_by element found s = (inr (Some false), s') ->
  exists by_,
    element_dict !! element_by = Some by_
    /\ (forall el, find_element driver (calls s) by_ element <> Returns (Some el))
    /\ calls s' = S (calls s) /\ slept s' = slept s.
Proof.
  unfold try_find_element.
  destruct (element_dict !! element_by) as [by_|]; [|discriminate].
  destruct (find_element driver (calls s) by_ element) as [[el|]|e] eqn:Hcall.
  - discriminate.
  - intros [= _ <-]. exists by_. repeat split; congruence.
  - destruct (is_ElementNotFound e); [|discriminate].
    intros [= <-]. exists by_. repeat split; congruence.
Qed.

Lemma polling_returned (fuel : nat) (driver : WebDriver)
    (element_by element : string) (wait_time found_wait_time start_time : Z)
    (found : option bool) (s s' : Session) :
  found <> Some true ->
  polling fuel driver element_by element wait_time found_wait_time start_time
    found s = Some (Returned, s') ->
  exists (by_ : By) (el : WebElement) (n : nat),
    element_dict !! element_by = Some by_
    /\ find_element driver (calls s + n) by_ element = Returns (Some el)
    /\ (forall j el', (j < n)%nat ->
          find_element driver (calls s + j) by_ element <> Returns (Some el'))
    /\ calls s' = (calls s + n + 1)%nat
    /\ slept s' = slept s ++ replicate n 1 ++ [found_wait_time].
Proof.
  revert found s. induction fuel as [|fuel IH]; intros found s Hfound; [discriminate|].
  cbn [polling].
  destruct (wait_time <=? _); [discriminate|].
  destruct (try_find_element _ _ _ _ _) as [[e|[[|]|]] s1] eqn:Htry;
    try discriminate.
  - intros [= <-].
    apply try_find_element_true in Htry as (by_ & el & Hby & Hcall & Hcalls & Hslept);
      [|exact Hfound].
    exists by_, el, 0%nat. rewrite Nat.add_0_r. simpl.
    repeat split; try assumption; try lia. now rewrite Hslept.
  - intros Hrun.
    apply try_find_element_false in Htry as (by_ & Hby & Hcall & Hcalls & Hslept).
    apply IH in Hrun as (by' & el & n & Hby' & Hfind & Hbefore & Hcalls' & Hslept');
      [|discriminate].
    assert (by' = by_) as -> by congruence.
    simpl in Hfind, Hbefore, Hcalls', Hslept'. rewrite Hcalls in *.
    exists by_, el, (S n). repeat split.
    + exact Hby.
    + now replace (calls s + S n)%nat with (S (calls s) + n)%nat by lia.
    + intros [|j] el' Hj.
      * rewrite Nat.add_0_r. apply Hcall.
      * replace (calls s + S j)%nat with (S (calls s) + j)%nat by lia.
        apply Hbefore. lia.
    + lia.
    + rewrite Hslept', Hslept. simpl. now rewrite <- app_assoc.
Qed.

(** X4. The wait returns normally only when the driver found the element:
    the strategy name is a key of the table, the last call of
    [find_element] returned an element and no call before it did, and the
    wait slept one second after each call, the last of them the settle
    second. *)
Theorem returns_only_when_found (driver : WebDriver)
    (element_by element : string) (default_time : option Z) (s s' : Session) :
  wait_until_element_is_visible driver element_by element default_time s
  = Some (Returned, s') ->
  exists (by_ : By) (el : WebElement) (n : nat),
    element_dict !! element_by = Some by_
    /\ find_element driver (calls s + n) by_ element = Returns (Some el)
    /\ (forall j el', (j < n)%nat ->
          find_element driver (calls s + j) by_ element <> Returns (Some el'))
    /\ calls s' = (calls s + n + 1)%nat
    /\ slept s' = slept s ++ replicate (n + 1) 1.
Proof.
  unfold wait_until_element_is_visible. intros Hrun.
  apply polling_returned in Hrun
    as (by_ & el & n & Hby & Hfind & Hbefore & Hcalls & Hslept); [|discriminate].
  exists by_, el, n. repeat split; try assumption.
  rewrite Hslept. f_equal. now rewrite replicate_add.
Qed.

(** The element is there at the second call. *)
Lemma returns_only_when_found_witness :
  let driver :=
    {| find_element := fun n _ _ =>
         if (n <? 1)%nat then Raises (ElementNotFound "no such element")
         else Returns (Some {| element_id := "e1" |});
       find_element_time := fun _ => 0%N |} in
  let s := {| now := 0; calls := 0; slept := [] |} in
  exists (el : WebElement) (n : nat),
    find_element driver n ID "submit" = Returns (Some el)
    /\ (forall j el', (j < n)%nat ->
          find_element driver j ID "submit" <> Returns (Some el')).
Proof.
  intros driver s.
  destruct (returns_only_when_found driver "ID" "submit" (Some 5) s
              {| now := 2 * second; calls := 2; slept := [1; 1] |} eq_refl)
    as (by_ & el & n & Hby & Hfind & Hbefore & _).
  injection Hby as <-. exists el, n. split; [exact Hfind | exact Hbefore].
Defined.

(** An attempt that stays in the loop has made its call. *)
Lemma try_find_element_called (driver : WebDriver) (element_by element : string)
    (found found' : option bool) (s s' : Session) :
  try_find_element driver element_by element found s = (inr found', s') ->
  calls s' = S (calls s).
Proof.
  unfold try_find_element.
  destruct (element_dict !! element_by) as [by_|]; [|discriminate].
  destruct (find_element driver (calls s) by_ element) as [[el|]|e];
    try destruct (is_ElementNotFound e); try discriminate;
    now intros [= _ <-].
Qed.

Lemma polling_calls_bounded (fuel : nat) (driver : WebDriver)
    (element_by element : string) (wait_time found_wait_time start_time : Z)
    (found : option bool) (s s' : Session) (c : completion) :
  start_time <= now s ->
  polling fuel driver element_by element wait_time found_wait_time start_time
    found s = Some (c, s') ->
  (calls s <= calls s'
   <= calls s + Z.to_nat (wait_time - int_seconds (now s - start_time)))%nat
  /\ (length (slept s) <= length (slept s')
      <= length (slept s) + (calls s' - calls s))%nat.
Proof.
  revert found s. induction fuel as [|fuel IH]; intros found s Hstart; [discriminate|].
  cbn [polling]. unfold time_time.
  destruct (wait_time <=? int_seconds (now s - start_time)) eqn:Hcheck.
  - intros [= _ <-]. lia.
  - apply Z.leb_gt in Hcheck.
    pose proof (try_find_element_session driver element_by element found s) as Hs.
    destruct (try_find_element _ _ _ _ _) as [[e|[[|]|]] s1] eqn:Htry;
      simpl in Hs; destruct Hs as (Hnow & Hslept & Hcalls).
    + intros [= _ <-]. rewrite Hslept. lia.
    + intros [= _ <-]. simpl. rewrite length_app, Hslept. simpl.
      apply try_find_element_called in Htry. lia.
    + intros Hrun. apply try_find_element_called in Htry.
      apply IH in Hrun; [|simpl; pose proof second_pos; lia].
      simpl in Hrun. rewrite length_app, Hslept in Hrun. simpl in Hrun.
      pose proof (int_seconds_next (now s - start_time) (now s1 - now s)
                    ltac:(lia) ltac:(lia)) as Hnext.
      replace (now s1 + 1 * second - start_time)
        with (now s - start_time + (now s1 - now s) + second) in Hrun by lia.
      lia.
    + intros [= _ <-]. rewrite Hslept. lia.
Qed.

(** X5. Whatever the driver does and however the wait ends, it calls
    [find_element] at most once for each second of the budget (not at all
    for a budget of zero or less), and it sleeps at most once for each
    call. *)
Theorem attempts_bounded_by_budget (driver : WebDriver)
    (element_by element : string) (wait_time : Z) (s s' : Session)
    (c : completion) :
  wait_until_element_is_visible driver element_by element (Some wait_time) s
  = Some (c, s') ->
  (calls s <= calls s' <= calls s + Z.to_nat wait_time)%nat
  /\ (length (slept s) <= length (slept s')
      <= length (slept s) + (calls s' - calls s))%nat.
Proof.
  unfold wait_until_element_is_visible, time_time. intros Hrun.
  apply polling_calls_bounded in Hrun; [|lia].
  rewrite Z.sub_diag, int_seconds_0, Z.sub_0_r in Hrun. exact Hrun.
Qed.

(** A driver that raises an error of its own at the third call, with a
    budget of five seconds: three calls, two sleeps. *)
Lemma attempts_bounded_by_budget_witness :
  let driver :=
    {| find_element := fun n _ _ =>
         if (n <? 2)%nat then Raises (ElementNotFound "no such element")
         else Raises (OtherError "WebDriverException" "chrome not reachable");
       find_element_time := fun _ => 250000%N |} in
  let s := {| now := 0; calls := 0; slept := [] |} in
  let s' := {| now := 2750000; calls := 3; slept := [1; 1] |} in
  (calls s <= calls s' <= calls s + Z.to_nat 5)%nat.
Proof.
  intros driver s s'.
  exact (proj1 (attempts_bounded_by_budget driver "ID" "submit" 5 s s'
                  (Raised (OtherError "WebDriverException" "chrome not reachable"))
                  eq_refl)).
Defined.

(** X6. A first call of [find_element] that returns [None], under a valid
    strategy name and a positive budget, binds nothing to
    [is_element_found]: reading it raises [UnboundLocalError], after that one
    call and without a sleep. *)
Theorem first_call_returning_None_raises_UnboundLocalError (driver : WebDriver)
    (element_by element : string) (by_ : By) (wait_time : Z) (s : Session) :
  element_dict !! element_by = Some by_ ->
  0 < wait_time ->
  find_element driver (calls s) by_ element = Returns None ->
  wait_until_element_is_visible driver element_by element (Some wait_time) s
  = Some (Raised (UnboundLocalError "is_element_found"),
          {| now := now s + Z.of_N (find_element_time driver (calls s));
             calls := S (calls s); slept := slept s |}).
Proof. apply first_locate_returning_None_raises. Qed.

(** A driver whose [find_element] returns [None] for a missing element. *)
Lemma first_call_returning_None_raises_UnboundLocalError_witness :
  let driver := {| find_element := fun _ _ _ => Returns None;
                   find_element_time := fun _ => 0%N |} in
  let s := {| now := 0; calls := 0; slept := [] |} in
  wait_until_element_is_visible driver "Name" "q" (Some 10) s
  = Some (Raised (UnboundLocalError "is_element_found"),
          {| now := 0; calls := 1; slept := [] |}).
Proof.
  intros driver s.
  exact (first_call_returning_None_raises_UnboundLocalError driver "Name" "q"
           NAME 10 s eq_refl ltac:(lia) eq_refl).
Defined.

(** Attempts that raise [ElementNotFound] or, once [is_element_found] is
    bound to [False], return [None]: all are absorbed. *)
Lemma polling_absorbs_None (k fuel : nat) (driver : WebDriver)
    (element_by element : string) (by_ : By)
    (wait_time found_wait_time start_time : Z) :
  element_dict !! element_by = Some by_ ->
  forall (found : option bool) (s : Session) (i : Z),
    now s = start_time + i * second ->
    0 <= i ->
    ((0 < k)%nat -> i + Z.of_nat k <= wait_time) ->
    (forall j, (j < k)%nat ->
       (exists msg, find_element driver (calls s + j) by_ element
                    = Raises (ElementNotFound msg))
       \/ (find_element driver (calls s + j) by_ element = Returns None
           /\ (found = Some false \/ (0 < j)%nat))) ->
    (forall j, (j < k)%nat -> find_element_time driver (calls s + j) = 0%N) ->
    polling (k + fuel) driver element_by element wait_time found_wait_time
      start_time found s
    = polling fuel driver element_by element wait_time found_wait_time
        start_time (match k with O => found | S _ => Some false end)
        {| now := now s + Z.of_nat k * second; calls := calls s + k;
           slept := slept s ++ replicate k 1 |}.
Proof.
  intros Hby. induction k as [|k IH]; intros found s i Hnow Hi Hbudget Hfail Htime.
  - simpl. f_equal. apply Session_eq; [lia | lia | now rewrite app_nil_r].
  - change (S k + fuel)%nat with (S (k + fuel)). cbn [polling]. unfold time_time.
    replace (now s - start_time) with (i * second) by lia.
    rewrite int_seconds_whole.
    destruct (wait_time <=? i) eqn:Hcheck; [apply Z.leb_le in Hcheck; lia|].
    pose proof (Htime 0%nat ltac:(lia)) as Ht. rewrite Nat.add_0_r in Ht.
    assert (try_find_element driver element_by element found s
            = (inr (Some false),
               {| now := now s + Z.of_N 0; calls := S (calls s);
                  slept := slept s |})) as ->.
    { unfold try_find_element. rewrite Hby, Ht.
      destruct (Hfail 0%nat ltac:(lia)) as [[msg Hmsg]|[Hnone [Hbound|Hj]]];
        rewrite Nat.add_0_r in *.
      - now rewrite Hmsg.
      - now rewrite Hnone, Hbound.
      - lia. }
    rewrite (IH (Some false)
               (time_sleep 1 {| now := now s + Z.of_N 0; calls := S (calls s);
                                slept := slept s |})
               (i + 1)).
    + f_equal; [now destruct k|]. simpl.
      apply Session_eq; simpl; [lia | lia | now rewrite <- app_assoc].
    + simpl. lia.
    + lia.
    + lia.
    + intros j Hj. simpl.
      replace (S (calls s + j)) with (calls s + S j)%nat by lia.
      destruct (Hfail (S j) ltac:(lia)) as [Hmsg|[Hnone _]]; [now left|].
      right. split; [exact Hnone | now left].
    + intros j Hj. simpl.
      replace (S (calls s + j)) with (calls s + S j)%nat by lia.
      apply Htime. lia.
Qed.

(** X7. Once one attempt has raised [ElementNotFound], a later call that
    returns [None] counts as not found, [is_element_found] still being
    [False]: with a first call that raises [ElementNotFound] and later calls
    that raise it or return [None], in no time on the clock, the wait times
    out when the budget has elapsed. *)
Theorem None_after_ElementNotFound_is_not_found (driver : WebDriver)
    (element_by element : string) (by_ : By) (wait_time : Z) (s : Session) :
  element_dict !! element_by = Some by_ ->
  (exists msg, find_element driver (calls s) by_ element
               = Raises (ElementNotFound msg)) ->
  (forall n, (calls s < n)%nat ->
     find_element driver n by_ element = Returns None
     \/ exists msg, find_element driver n by_ element
                    = Raises (ElementNotFound msg)) ->
  (forall n, find_element_time driver n = 0%N) ->
  wait_until_element_is_visible driver element_by element (Some wait_time) s
  = Some (Raised (ElementNotFound (not_found_message element)),
          {| now := now s + Z.max wait_time 0 * second;
             calls := calls s + Z.to_nat wait_time;
             slept := slept s ++ replicate (Z.to_nat wait_time) 1 |}).
Proof.
  intros Hby Hfirst Hlater Htime. unfold wait_until_element_is_visible, time_time.
  replace (S (Z.to_nat wait_time)) with (Z.to_nat wait_time + 1)%nat by lia.
  rewrite (polling_absorbs_None (Z.to_nat wait_time) 1 driver element_by element
             by_ wait_time 1 (now s) Hby None s 0); try lia.
  - cbn [polling]. unfold time_time. cbn [now].
    replace (now s + Z.of_nat (Z.to_nat wait_time) * second - now s)
      with (Z.of_nat (Z.to_nat wait_time) * second) by lia.
    rewrite int_seconds_whole.
    destruct (wait_time <=? Z.of_nat (Z.to_nat wait_time)) eqn:Hcheck;
      [|apply Z.leb_gt in Hcheck; lia].
    do 2 f_equal. apply Session_eq; simpl; [|reflexivity..].
    f_equal. f_equal. lia.
  - intros [|j] Hj.
    + left. now rewrite Nat.add_0_r.
    + destruct (Hlater (calls s + S j)%nat ltac:(lia)) as [Hnone|Hmsg].
      * right. split; [exact Hnone | right; lia].
      * now left.
  - intros j _. apply Htime.
Qed.

(** A driver that raises once and returns [None] from then on. *)
Lemma None_after_ElementNotFound_is_not_found_witness :
  let driver :=
    {| find_element := fun n _ _ =>
         if (n <? 1)%nat then Raises (ElementNotFound "no such element")
         else Returns None;
       find_element_time := fun _ => 0%N |} in
  let s := {| now := 0; calls := 0; slept := [] |} in
  wait_until_element_is_visible driver "ID" "submit" (Some 3) s
  = Some (Raised (ElementNotFound "The element - submit not found within the limited time!"),
          {| now := 3 * second; calls := 3; slept := [1; 1; 1] |}).
Proof.
  intros driver s.
  apply (None_after_ElementNotFound_is_not_found driver "ID" "submit" ID 3 s
           eq_refl).
  - now exists "no such element".
  - intros n Hn. left. simpl in Hn. destruct n; [lia | reflexivity].
  - reflexivity.
Defined.

(** ** The version probe, for any values *)






Lemma strip_all_space (s : string) :
  PyStr.all_space s = true -> PyStr.strip s = EmptyString.
Proof.
  intros Hs. unfold PyStr.strip. now rewrite PyStrFacts.rstrip_all_space.
Qed.

(** X10. A value made of white space only still wins: the probe returns
    the empty string, not [None], and the pipeline then fails on the major
    version with the [AttributeError] of a version without digits, before
    any request. (The line written is taken to decode to itself, as white
    space does in every code page.) *)
Theorem blank_version_is_not_absent (h : Host) (proxy_url : option string)
    (m : Machine) (i : nat) (e : string) :
  COMMANDS !! i = Some e ->
  ps_value h e <> EmptyString ->
  PyStr.all_space (ps_value h e) = true ->
  (forall (j : nat) (e' : string),
      (j < i)%nat -> COMMANDS !! j = Some e' -> ps_value h e' = EmptyString) ->
  console_decode h (ps_value h e +:+ PyStr.crlf)
  = Some (ps_value h e +:+ PyStr.crlf) ->
  exists m' msg,
    get_chrome_version h m = (inr (Some EmptyString), m')
    /\ download_chrome_web_driver h proxy_url m = (inl (AttributeError msg), m')
    /\ requests_sent m' = requests_sent m.
Proof.
  intros Hi He Hblank Hbefore Hdecode.
  pose proof (misses_before h COMMANDS i Hbefore) as Hmiss.
  pose proof (take_drop_middle COMMANDS i e Hi) as Hsplit.
  destruct (get_chrome_version_of_first_hit h (take i COMMANDS)
              (drop (S i) COMMANDS) e m
              ltac:(rewrite Hsplit; exact COMMANDS_single_expressions)
              Hmiss He Hdecode) as (m' & Hrun & _ & _ & Hreq & _).
  rewrite Hsplit in Hrun.
  rewrite (strip_all_space _ Hblank) in Hrun.
  assert (Hprobe : get_chrome_version h m = (inr (Some EmptyString), m'))
    by exact Hrun.
  exists m'. eexists. split; [exact Hprobe|]. split; [|exact Hreq].
  unfold download_chrome_web_driver.
  rewrite (bind_returns _ _ _ _ _ Hprobe). apply bind_raises. reflexivity.
Qed.

(** The first command answers with an empty line. *)
Lemma blank_version_is_not_absent_witness :
  let h := {| sys_platform := "win32"; ps_value := fun _ => " ";
              requests_get := fun _ => inl (OtherError "ConnectionError" "offline");
              zip_entries := fun _ => None; creation_mode := 438; console_decode := Some;
              zip_read := fun _ _ => Extracts; chmod_error := fun _ => None |} in
  exists m' msg,
    get_chrome_version h (init ∅) = (inr (Some EmptyString), m')
    /\ download_chrome_web_driver h None (init ∅) = (inl (AttributeError msg), m')
    /\ requests_sent m' = [].
Proof.
  intros h.
  apply (blank_version_is_not_absent h None (init ∅) 0%nat
           (hd EmptyString COMMANDS) eq_refl).
  - simpl. discriminate.
  - reflexivity.
  - intros j e' Hj. lia.
  - reflexivity.
Defined.

(** ** The acquisition pipeline, for any host *)

(** What each step does to the machine, however it ends. *)

Lemma re_search_leading_digits_group_frame (version : option string)
    (m m' : Machine) (r : exception + string) :
  re_search_leading_digits_group version m = (r, m') ->
  m' = m
  /\ (forall major, r = inr major ->
        exists v, version = Some v /\ major = PyStr.span PyStr.isdigit v
                  /\ PyStr.starts_with_digit v = true).
Proof.
  unfold re_search_leading_digits_group, raise, pure.
  destruct version as [v|]; [|now intros [= <- <-]].
  pose proof (PyStrFacts.span_isdigit_empty v) as Hempty.
  destruct (PyStr.is_empty (PyStr.span PyStr.isdigit v));
    intros [= <- <-]; split; try reflexivity; try discriminate.
  intros major [= <-]. exists v. repeat split.
  now destruct (PyStr.starts_with_digit v).
Qed.

Lemma get_request_frame (h : Host) (url : string) (proxy_url : option string)
    (_stream : option bool) (m m' : Machine) (r : exception + Response) :
  get_request h url proxy_url _stream m = (r, m') ->
  let request := {| url := url; proxies := set_proxy proxy_url;
                    stream := _stream; timeout := 120 |} in
  r = requests_get h request
  /\ requests_sent m' = requests_sent m ++ [request]
  /\ cwd m' = cwd m /\ spawned m' = spawned m /\ printed m' = printed m
  /\ _driver m' = _driver m /\ _file_response m' = _file_response m.
Proof.
  intros Hrun request. unfold get_request in Hrun. fold request in Hrun.
  destruct (requests_get h request); injection Hrun as <- <-;
    repeat split; reflexivity.
Qed.

Lemma extract_zip_frame (h : Host) (m m' : Machine) (r : exception + unit) :
  extract_zip h m = (r, m') ->
  requests_sent m' = requests_sent m /\ spawned m' = spawned m
  /\ printed m' = printed m /\ _file_response m' = _file_response m
  /\ _driver m' = Some "chromedriver.exe"
  /\ (forall path : string,
         path <> "chromedriver.exe" -> cwd m' !! path = cwd m !! path)
  /\ (forall e, r = inl e ->
         cwd m' = cwd m
         \/ exists response written,
              _file_response m = Some response
              /\ zip_read h (content response) "chromedriver.exe"
                 = FailsAfterOpen e written
              /\ cwd m'
                 = <["chromedriver.exe" :=
                       {| data := written;
                          mode := match cwd m !! "chromedriver.exe" with
                                  | Some old => mode old
                                  | None => creation_mode h
                                  end |}]> (cwd m)).
Proof.
  unfold extract_zip, bind, modify. cbn [_file_response _driver].
  destruct (_file_response m) as [response|];
    [|intros [= <- <-]; repeat split; try reflexivity; now left].
  destruct (zip_entries h (content response)) as [archive|];
    [|intros [= <- <-]; repeat split; try reflexivity; now left].
  destruct (archive !! "chromedriver.exe") as [bytes|];
    [|intros [= <- <-]; repeat split; try reflexivity; now left].
  cbn [cwd].
  destruct (zip_read h (content response) "chromedriver.exe")
    as [|e|e written] eqn:Hread; intros [= <- <-];
    cbn [cwd requests_sent spawned printed _driver _file_response];
    repeat split; try reflexivity; try discriminate;
    try (intros path Hpath; now rewrite lookup_insert_ne by congruence).
  - intros e' [= <-]. now left.
  - intros e' [= <-]. right. now exists response, written.
Qed.

Lemma set_execusion_permission_frame (h : Host) (m m' : Machine)
    (r : exception + unit) :
  set_execusion_permission h m = (r, m') ->
  requests_sent m' = requests_sent m /\ spawned m' = spawned m
  /\ printed m' = printed m /\ _file_response m' = _file_response m
  /\ _driver m' = _driver m
  /\ (forall path : string,
         _driver m <> Some path -> cwd m' !! path = cwd m !! path)
  /\ (forall e, r = inl e -> cwd m' = cwd m).
Proof.
  unfold set_execusion_permission, os_chmod.
  destruct (_driver m) as [path|] eqn:Hdriver;
    [|intros [= <- <-]; repeat split; congruence].
  destruct (cwd m !! path) as [f|];
    [|intros [= <- <-]; repeat split; congruence].
  destruct (chmod_error h path) as [e|];
    [intros [= <- <-]; repeat split; congruence|].
  intros [= <- <-]. cbn [cwd requests_sent spawned printed _driver _file_response].
  repeat split; try congruence.
  intros path' Hpath. now rewrite lookup_insert_ne by congruence.
Qed.

Lemma bind_cases {A B} (c : Py A) (k : A -> Py B) (m : Machine) :
  (exists e m1, c m = (inl e, m1) /\ bind c k m = (inl e, m1))
  \/ (exists a m1, c m = (inr a, m1) /\ bind c k m = k a m1).
Proof.
  unfold bind. destruct (c m) as [[e|a] m1]; [left | right]; eauto.
Qed.

(** Case analysis on the first step of a sequence. *)
Ltac pipeline_step H :=
  match goal with
  | |- context [bind ?c ?k ?m] =>
      let e := fresh "e" in
      let m1 := fresh "m" in
      destruct (bind_cases c k m) as [(e & m1 & H & ->)|(? & m1 & H & ->)]
  end.

(** The three parts of the invariant below, for a given list of requests. *)
Ltac pipeline_frame sent :=
  cbn [snd]; split; [|split; [|exists sent; split; [|split]]];
  [ | | | cbn [length]; lia
  | let request := fresh "request" in
    let Hin := fresh "Hin" in
    intros request Hin;
    repeat (apply elem_of_cons in Hin as [->|Hin]);
    try (now apply elem_of_nil in Hin);
    cbn [timeout proxies url]; repeat split; eexists; reflexivity ].

(** X12. However [setup_chrome_web_driver] ends, it has touched no file of
    the working directory but [chromedriver.exe], spawned at most one shell
    command, and sent at most two requests, each to the ChromeDriver storage
    host, with the caller's proxy setting and a timeout of 120 seconds. *)
Theorem setup_touches_only_the_driver_file (h : Host)
    (proxy_url : option string) (m : Machine) :
  let m' := (setup_chrome_web_driver h proxy_url m).2 in
  (forall path : string,
      path <> "chromedriver.exe" -> cwd m' !! path = cwd m !! path)
  /\ (length (spawned m') <= length (spawned m) + 1)%nat
  /\ exists sent : list Request,
       requests_sent m' = requests_sent m ++ sent
       /\ (length sent <= 2)%nat
       /\ forall request, request ∈ sent ->
            timeout request = 120
            /\ proxies request = set_proxy proxy_url
            /\ exists rest,
                 url request
                 = "https://chromedriver.storage.googleapis.com" +:+ rest.
Proof.
  cbv zeta. unfold setup_chrome_web_driver.
  destruct (system_requirements h).
  2:{ unfold bind, print, modify, sys_exit, raise.
      pipeline_frame (@nil Request); cbn; [reflexivity | lia | now rewrite app_nil_r]. }
  unfold download_chrome_web_driver.
  pipeline_step Hprobe;
    apply get_chrome_version_frame in Hprobe as (Hc1 & Hr1 & Hs1 & _).
  { pipeline_frame (@nil Request);
      [now rewrite Hc1 | lia | now rewrite Hr1, app_nil_r]. }
  pipeline_step Hmajor;
    apply re_search_leading_digits_group_frame in Hmajor as [-> _].
  { pipeline_frame (@nil Request);
      [now rewrite Hc1 | lia | now rewrite Hr1, app_nil_r]. }
  pipeline_step Hlatest;
    apply get_request_frame in Hlatest as (_ & Hr2 & Hc2 & Hs2 & _).
  { match type of Hr2 with _ = _ ++ [?r] => pipeline_frame [r] end;
      [now rewrite Hc2, Hc1 | rewrite Hs2; lia | now rewrite Hr2, Hr1]. }
  pipeline_step Hfile;
    apply get_request_frame in Hfile as (_ & Hr3 & Hc3 & Hs3 & _).
  { match type of Hr2 with _ = _ ++ [?r1] =>
      match type of Hr3 with _ = _ ++ [?r2] => pipeline_frame [r1; r2] end end;
      [ now rewrite Hc3, Hc2, Hc1 | rewrite Hs3, Hs2; lia
      | now rewrite Hr3, Hr2, Hr1, <- app_assoc ]. }
  pipeline_step Hstore; unfold modify in Hstore; [discriminate|].
  injection Hstore as _ <-.
  pipeline_step Hextract;
    apply extract_zip_frame in Hextract as (Hr4 & Hs4 & _ & _ & Hd4 & Hc4 & _);
    cbn [cwd requests_sent spawned] in Hr4, Hs4, Hc4.
  { match type of Hr2 with _ = _ ++ [?r1] =>
      match type of Hr3 with _ = _ ++ [?r2] => pipeline_frame [r1; r2] end end;
      [ intros path Hpath; now rewrite Hc4, Hc3, Hc2, Hc1
      | rewrite Hs4, Hs3, Hs2; lia
      | now rewrite Hr4, Hr3, Hr2, Hr1, <- app_assoc ]. }
  destruct (set_execusion_permission _ _) as [r m5] eqn:Hchmod.
  apply set_execusion_permission_frame in Hchmod
    as (Hr5 & Hs5 & _ & _ & _ & Hc5 & _).
  match type of Hr2 with _ = _ ++ [?r1] =>
    match type of Hr3 with _ = _ ++ [?r2] => pipeline_frame [r1; r2] end end.
  - intros path Hpath. rewrite Hc5 by congruence.
    now rewrite Hc4, Hc3, Hc2, Hc1.
  - rewrite Hs5, Hs4, Hs3, Hs2. lia.
  - now rewrite Hr5, Hr4, Hr3, Hr2, Hr1, <- app_assoc.
Qed.

(** X13. An exception raised by [requests.get], on the first request or
    on the second, leaves [setup_chrome_web_driver] as it is, with no retry:
    one request was sent, or two, and the working directory and the driver
    attribute are as before. The first request asks for the latest release
    of the major version, the second for the archive of the release named by
    the stripped text of the first answer. *)
Theorem request_failure_propagates (h : Host) (proxy_url : option string)
    (m m1 : Machine) (v : string) (e : exception) :
  sys_platform h = "win32" ->
  get_chrome_version h m = (inr (Some v), m1) ->
  PyStr.starts_with_digit v = true ->
  let latest_release :=
    {| url := "https://chromedriver.storage.googleapis.com"
              +:+ "/LATEST_RELEASE_" +:+ PyStr.span PyStr.isdigit v;
       proxies := set_proxy proxy_url; stream := None; timeout := 120 |} in
  let archive_of (latest : Response) :=
    {| url := "https://chromedriver.storage.googleapis.com" +:+ "/"
              +:+ PyStr.strip (text latest) +:+ "/chromedriver_win32.zip";
       proxies := set_proxy proxy_url; stream := Some true; timeout := 120 |} in
  (requests_get h latest_release = inl e ->
   exists m',
     setup_chrome_web_driver h proxy_url m = (inl e, m')
     /\ requests_sent m' = requests_sent m ++ [latest_release]
     /\ cwd m' = cwd m /\ _driver m' = _driver m)
  /\ (forall latest : Response,
        requests_get h latest_release = inr latest ->
        requests_get h (archive_of latest) = inl e ->
        exists m',
          setup_chrome_web_driver h proxy_url m = (inl e, m')
          /\ requests_sent m' = requests_sent m
                                ++ [latest_release; archive_of latest]
          /\ cwd m' = cwd m /\ _driver m' = _driver m).
Proof.
  intros Hplatform Hprobe Hv latest_release archive_of.
  apply get_chrome_version_frame in Hprobe as Hframe.
  destruct Hframe as (Hc1 & Hr1 & _ & _ & Hd1 & _).
  assert (forall k : Py unit,
             k = download_chrome_web_driver h proxy_url ->
             setup_chrome_web_driver h proxy_url m = k m) as Hsetup.
  { intros k ->. unfold setup_chrome_web_driver, system_requirements.
    now rewrite Hplatform. }
  split.
  - intros Hget.
    destruct (get_request_raises h _ proxy_url None m1 e Hget)
      as (m' & Hrun & Hr2 & Hc2 & Hd2 & _).
    exists m'. rewrite (Hsetup _ eq_refl). unfold download_chrome_web_driver.
    rewrite (bind_returns _ _ _ _ _ Hprobe).
    rewrite (bind_returns _ _ _ _ _
               (re_search_leading_digits_group_returns v m1 Hv)).
    rewrite (bind_raises _ _ _ _ _ Hrun).
    repeat split; [now rewrite Hr2, Hr1 | congruence | congruence].
  - intros latest Hget1 Hget2.
    destruct (get_request_answers h _ proxy_url None m1 latest Hget1)
      as (m2 & Hrun1 & Hr2 & Hc2 & Hd2 & _).
    destruct (get_request_raises h _ proxy_url (Some true) m2 e Hget2)
      as (m' & Hrun2 & Hr3 & Hc3 & Hd3 & _).
    exists m'. rewrite (Hsetup _ eq_refl). unfold download_chrome_web_driver.
    rewrite (bind_returns _ _ _ _ _ Hprobe).
    rewrite (bind_returns _ _ _ _ _
               (re_search_leading_digits_group_returns v m1 Hv)).
    rewrite (bind_returns _ _ _ _ _ Hrun1).
    rewrite (bind_raises _ _ _ _ _ Hrun2).
    repeat split; [|congruence|congruence].
    rewrite Hr3, Hr2, Hr1. now rewrite <- app_assoc.
Qed.

(** Chrome 119 on a machine that is offline. *)
Lemma request_failure_propagates_witness :
  let h := {| sys_platform := "win32"; ps_value := fun _ => "119.0.6045.105";
              requests_get := fun _ => inl (OtherError "ConnectionError" "offline");
              zip_entries := fun _ => None; creation_mode := 438; console_decode := Some;
              zip_read := fun _ _ => Extracts; chmod_error := fun _ => None |} in
  exists m',
    setup_chrome_web_driver h None (init ∅)
    = (inl (OtherError "ConnectionError" "offline"), m')
    /\ requests_sent m'
       = [ {| url := "https://chromedriver.storage.googleapis.com/LATEST_RELEASE_119";
              proxies := None; stream := None; timeout := 120 |} ]
    /\ cwd m' = ∅.
Proof.
  intros h.
  destruct (proj1 (request_failure_propagates h None (init ∅)
                     (get_chrome_version h (init ∅)).2 "119.0.6045.105"
                     (OtherError "ConnectionError" "offline")
                     eq_refl eq_refl eq_refl) eq_refl)
    as (m' & Hrun & Hreq & Hcwd & _).
  exists m'. split; [exact Hrun|]. split; [exact Hreq | exact Hcwd].
Defined.

(** X11. Every acquisition that returns ran on [win32], found a version
    that starts with a digit and sent exactly two requests: the first for
    the latest release of the major version, the second, with streaming, for
    the Windows archive of the release named by the stripped text of the
    first answer. Both answers were taken as they came; the second is the
    response kept in the instance. *)
Theorem acquisition_sends_two_requests (h : Host) (proxy_url : option string)
    (m m' : Machine) :
  setup_chrome_web_driver h proxy_url m = (inr tt, m') ->
  exists (v : string) (m1 : Machine) (latest file_response : Response),
    let latest_release :=
      {| url := "https://chromedriver.storage.googleapis.com"
                +:+ "/LATEST_RELEASE_" +:+ PyStr.span PyStr.isdigit v;
         proxies := set_proxy proxy_url; stream := None; timeout := 120 |} in
    let archive :=
      {| url := "https://chromedriver.storage.googleapis.com" +:+ "/"
                +:+ PyStr.strip (text latest) +:+ "/chromedriver_win32.zip";
         proxies := set_proxy proxy_url; stream := Some true; timeout := 120 |} in
    sys_platform h = "win32"
    /\ get_chrome_version h m = (inr (Some v), m1)
    /\ PyStr.starts_with_digit v = true
    /\ requests_get h latest_release = inr latest
    /\ requests_get h archive = inr file_response
    /\ requests_sent m' = requests_sent m ++ [latest_release; archive]
    /\ _file_response m' = Some file_response
    /\ printed m' = printed m.
Proof.
  unfold setup_chrome_web_driver, system_requirements.
  destruct (String.eqb (sys_platform h) "win32") eqn:Hplatform; [|discriminate].
  apply String.eqb_eq in Hplatform.
  unfold download_chrome_web_driver. intros Hrun.
  apply bind_inr in Hrun as (version & m1 & Hprobe & Hrun).
  apply bind_inr in Hrun as (major_version & m2 & Hmajor & Hrun).
  apply bind_inr in Hrun as (latest & m3 & Hlatest & Hrun).
  apply bind_inr in Hrun as (file_response & m4 & Hfile & Hrun).
  apply bind_inr in Hrun as ([] & m5 & Hstore & Hrun).
  apply bind_inr in Hrun as ([] & m6 & Hextract & Hchmod).
  apply re_search_leading_digits_group_frame in Hmajor as [-> Hmajor].
  destruct (Hmajor _ eq_refl) as (v & -> & -> & Hv).
  apply get_chrome_version_frame in Hprobe as Hframe.
  destruct Hframe as (_ & Hr1 & _ & Hp1 & _).
  apply get_request_frame in Hlatest as (Hget1 & Hr3 & _ & _ & Hp3 & _).
  apply get_request_frame in Hfile as (Hget2 & Hr4 & _ & _ & Hp4 & _).
  unfold modify in Hstore. injection Hstore as <-.
  apply extract_zip_frame in Hextract as (Hr6 & _ & Hp6 & Hf6 & _).
  apply set_execusion_permission_frame in Hchmod as (Hr7 & _ & Hp7 & Hf7 & _).
  cbn [requests_sent printed _file_response] in Hr6, Hp6, Hf6.
  exists v, m1, latest, file_response. cbv zeta.
  repeat split; try congruence.
  rewrite Hr7, Hr6, Hr4, Hr3, Hr1. now rewrite <- app_assoc.
Qed.

(** A host with Chrome 119, a server that answers, and an archive that
    holds the driver. *)
Lemma acquisition_sends_two_requests_witness :
  let h := {| sys_platform := "win32"; ps_value := fun _ => "119.0.6045.105";
              requests_get := fun _ =>
                inr {| status_code := 200; text := "119.0.6045.35";
                       content := [Byte.x50; Byte.x4b] |};
              zip_entries := fun _ => Some {[ "chromedriver.exe" := [Byte.x4d; Byte.x5a] ]};
              creation_mode := 438; console_decode := Some;
              zip_read := fun _ _ => Extracts; chmod_error := fun _ => None |} in
  exists v m1 latest,
    get_chrome_version h (init ∅) = (inr (Some v), m1)
    /\ requests_sent (setup_chrome_web_driver h None (init ∅)).2
       = [ {| url := "https://chromedriver.storage.googleapis.com"
                     +:+ "/LATEST_RELEASE_" +:+ PyStr.span PyStr.isdigit v;
              proxies := None; stream := None; timeout := 120 |};
           {| url := "https://chromedriver.storage.googleapis.com" +:+ "/"
                     +:+ PyStr.strip (text latest) +:+ "/chromedriver_win32.zip";
              proxies := None; stream := Some true; timeout := 120 |} ].
Proof.
  intros h.
  destruct (acquisition_sends_two_requests h None (init ∅)
              (setup_chrome_web_driver h None (init ∅)).2)
    as (v & m1 & latest & file_response & _ & Hprobe & _ & _ & _ & Hsent & _).
  - vm_compute. reflexivity.
  - exists v, m1, latest. split; [exact Hprobe | exact Hsent].
Defined.

(** The machine on which the extraction starts, once the version was found
    and both requests were answered. *)
Lemma setup_reaches_extraction (h : Host) (proxy_url : option string)
    (m m1 : Machine) (v : string) (latest file_response : Response) :
  sys_platform h = "win32" ->
  get_chrome_version h m = (inr (Some v), m1) ->
  PyStr.starts_with_digit v = true ->
  requests_get h
    {| url := "https://chromedriver.storage.googleapis.com"
              +:+ "/LATEST_RELEASE_" +:+ PyStr.span PyStr.isdigit v;
       proxies := set_proxy proxy_url; stream := None; timeout := 120 |}
  = inr latest ->
  requests_get h
    {| url := "https://chromedriver.storage.googleapis.com" +:+ "/"
              +:+ PyStr.strip (text latest) +:+ "/chromedriver_win32.zip";
       proxies := set_proxy proxy_url; stream := Some true; timeout := 120 |}
  = inr file_response ->
  exists m3,
    setup_chrome_web_driver h proxy_url m
    = (extract_zip h ;; set_execusion_permission h) m3
    /\ _file_response m3 = Some file_response
    /\ cwd m3 = cwd m.
Proof.
  intros Hplatform Hprobe Hv Hget1 Hget2.
  apply get_chrome_version_frame in Hprobe as Hframe.
  destruct Hframe as (Hc1 & _).
  destruct (get_request_answers h _ proxy_url None m1 latest Hget1)
    as (m2 & Hrun1 & _ & Hc2 & _).
  destruct (get_request_answers h _ proxy_url (Some true) m2 file_response Hget2)
    as (m3 & Hrun2 & _ & Hc3 & _).
  exists {| _file_response := Some file_response; _driver := _driver m3;
            printed := printed m3; spawned := spawned m3;
            queried := queried m3; requests_sent := requests_sent m3;
            cwd := cwd m3 |}.
  split; [|split; [reflexivity | cbn [cwd]; congruence]].
  unfold setup_chrome_web_driver, system_requirements. rewrite Hplatform.
  change (String.eqb "win32" "win32") with true. cbv iota.
  unfold download_chrome_web_driver.
  rewrite (bind_returns _ _ _ _ _ Hprobe).
  rewrite (bind_returns _ _ _ _ _
             (re_search_leading_digits_group_returns v m1 Hv)).
  rewrite (bind_returns _ _ _ _ _ Hrun1).
  rewrite (bind_returns _ _ _ _ _ Hrun2).
  reflexivity.
Qed.

(** The extraction on a machine that holds a response: the driver
    attribute is set first, then the archive decides. *)
Lemma extract_zip_on (h : Host) (m : Machine) (response : Response) :
  _file_response m = Some response ->
  let named :=
    {| _file_response := _file_response m; _driver := Some "chromedriver.exe";
       printed := printed m; spawned := spawned m; queried := queried m;
       requests_sent := requests_sent m; cwd := cwd m |} in
  let target (written : list Byte.byte) :=
    {| _file_response := _file_response m; _driver := Some "chromedriver.exe";
       printed := printed m; spawned := spawned m; queried := queried m;
       requests_sent := requests_sent m;
       cwd := <["chromedriver.exe" :=
                  {| data := written;
                     mode := match cwd m !! "chromedriver.exe" with
                             | Some old => mode old
                             | None => creation_mode h
                             end |}]> (cwd m) |} in
  extract_zip h m
  = match zip_entries h (content response) with
    | None => (inl (BadZipFile "File is not a zip file"), named)
    | Some archive =>
        match archive !! "chromedriver.exe" with
        | None =>
            (inl (KeyError
                    "There is no item named 'chromedriver.exe' in the archive"),
             named)
        | Some bytes =>
            match zip_read h (content response) "chromedriver.exe" with
            | FailsBeforeOpen e => (inl e, named)
            | FailsAfterOpen e written => (inl e, target written)
            | Extracts => (inr tt, target bytes)
            end
        end
    end.
Proof.
  intros Hresponse. cbv zeta. unfold extract_zip, bind, modify.
  cbn [_file_response _driver cwd]. rewrite Hresponse.
  destruct (zip_entries h (content response)) as [archive|]; [|reflexivity].
  destruct (archive !! "chromedriver.exe") as [bytes|]; [|reflexivity].
  now destruct (zip_read h (content response) "chromedriver.exe").
Qed.

(** Setting the permission of a file that is there. *)
Lemma set_execusion_permission_on (h : Host) (m : Machine) (path : string)
    (f : File) :
  _driver m = Some path -> cwd m !! path = Some f ->
  set_execusion_permission h m
  = match chmod_error h path with
    | Some e => (inl e, m)
    | None =>
        (inr tt,
         {| _file_response := _file_response m; _driver := _driver m;
            printed := printed m; spawned := spawned m; queried := queried m;
            requests_sent := requests_sent m;
            cwd := <[path := {| data := data f; mode := 493 |}]> (cwd m) |})
    end.
Proof.
  intros Hdriver Hf. unfold set_execusion_permission, os_chmod.
  now rewrite Hdriver, Hf.
Qed.

(** X14. When the second answer is not a zip archive, the setup raises
    [BadZipFile]; when it is one without an entry [chromedriver.exe], it
    raises the [KeyError] of [ZipFile.getinfo], whose argument is the
    sentence that names the entry; when the entry cannot be opened, it
    raises what opening it raises. In all three cases nothing is written to
    the working directory, while the driver attribute already names
    [chromedriver.exe]. *)
Theorem bad_archive_writes_nothing (h : Host) (proxy_url : option string)
    (m m1 : Machine) (v : string) (latest file_response : Response) :
  sys_platform h = "win32" ->
  get_chrome_version h m = (inr (Some v), m1) ->
  PyStr.starts_with_digit v = true ->
  requests_get h
    {| url := "https://chromedriver.storage.googleapis.com"
              +:+ "/LATEST_RELEASE_" +:+ PyStr.span PyStr.isdigit v;
       proxies := set_proxy proxy_url; stream := None; timeout := 120 |}
  = inr latest ->
  requests_get h
    {| url := "https://chromedriver.storage.googleapis.com" +:+ "/"
              +:+ PyStr.strip (text latest) +:+ "/chromedriver_win32.zip";
       proxies := set_proxy proxy_url; stream := Some true; timeout := 120 |}
  = inr file_response ->
  (zip_entries h (content file_response) = None ->
   exists m',
     setup_chrome_web_driver h proxy_url m
     = (inl (BadZipFile "File is not a zip file"), m')
     /\ cwd m' = cwd m /\ _driver m' = Some "chromedriver.exe")
  /\ (forall archive : gmap string (list Byte.byte),
        zip_entries h (content file_response) = Some archive ->
        archive !! "chromedriver.exe" = None ->
        exists m',
          setup_chrome_web_driver h proxy_url m
          = (inl (KeyError
                    "There is no item named 'chromedriver.exe' in the archive"),
             m')
          /\ cwd m' = cwd m /\ _driver m' = Some "chromedriver.exe")
  /\ (forall (archive : gmap string (list Byte.byte)) (bytes : list Byte.byte)
             (e : exception),
        zip_entries h (content file_response) = Some archive ->
        archive !! "chromedriver.exe" = Some bytes ->
        zip_read h (content file_response) "chromedriver.exe"
        = FailsBeforeOpen e ->
        exists m',
          setup_chrome_web_driver h proxy_url m = (inl e, m')
          /\ cwd m' = cwd m /\ _driver m' = Some "chromedriver.exe").
Proof.
  intros Hplatform Hprobe Hv Hget1 Hget2.
  destruct (setup_reaches_extraction h proxy_url m m1 v latest file_response
              Hplatform Hprobe Hv Hget1 Hget2) as (m3 & -> & Hresponse & Hcwd).
  unfold bind. rewrite (extract_zip_on h m3 file_response Hresponse).
  split; [|split].
  - intros ->. eexists. split; [reflexivity|]. now split.
  - intros archive -> ->. eexists. split; [reflexivity|]. now split.
  - intros archive bytes e -> -> ->. eexists. split; [reflexivity|]. now split.
Qed.

(** The server answers with a page that is not an archive. *)
Lemma bad_archive_writes_nothing_witness :
  let h := {| sys_platform := "win32"; ps_value := fun _ => "119.0.6045.105";
              requests_get := fun _ =>
                inr {| status_code := 404; text := "NoSuchKey"; content := [] |};
              zip_entries := fun _ => None; creation_mode := 438; console_decode := Some;
              zip_read := fun _ _ => Extracts; chmod_error := fun _ => None |} in
  exists m',
    setup_chrome_web_driver h None (init ∅)
    = (inl (BadZipFile "File is not a zip file"), m')
    /\ cwd m' = ∅ /\ _driver m' = Some "chromedriver.exe".
Proof.
  intros h.
  exact (proj1 (bad_archive_writes_nothing h None (init ∅)
                  (get_chrome_version h (init ∅)).2 "119.0.6045.105"
                  {| status_code := 404; text := "NoSuchKey"; content := [] |}
                  {| status_code := 404; text := "NoSuchKey"; content := [] |}
                  eq_refl ltac:(vm_compute; reflexivity) eq_refl eq_refl eq_refl)
           eq_refl).
Defined.

(** The shell does not look at the answers of the server: a statement runs
    the same on two hosts whose expressions have the same values. *)
Lemma exec_same_values (h h' : Host) :
  (forall e : string, ps_value h' e = ps_value h e) ->
  forall (s : PowerShell.stmt) (r : PowerShell.run),
    PowerShell.exec h' s r = PowerShell.exec h s r.
Proof.
  intros Hvalues. fix IH 1. intros [p|v e|v body|v|] r; cbn [PowerShell.exec];
    try reflexivity.
  - now rewrite Hvalues.
  - destruct (PowerShell.exited r); [reflexivity|].
    destruct (PyStr.truthy _); [|reflexivity].
    revert r. generalize body. fix IHbody 1. intros [|s body'] r;
      [reflexivity|].
    rewrite IH. apply IHbody.
Qed.

Lemma exec_all_same_values (h h' : Host) (script : list PowerShell.stmt)
    (r : PowerShell.run) :
  (forall e : string, ps_value h' e = ps_value h e) ->
  PowerShell.exec_all h' script r = PowerShell.exec_all h script r.
Proof.
  intros Hvalues. revert r. unfold PowerShell.exec_all.
  induction script as [|s script IH]; intros r; [reflexivity|].
  cbn [fold_left]. now rewrite (exec_same_values h h' Hvalues), IH.
Qed.

Lemma get_chrome_version_of_with_status_codes (f : Z -> Z) (h : Host)
    (commands : list string) (m : Machine) :
  get_chrome_version_of (with_status_codes f h) commands m
  = get_chrome_version_of h commands m.
Proof.
  unfold get_chrome_version_of, popen, decode, bind. cbv zeta.
  destruct (PowerShell.read_command_line _) as [script|]; [|reflexivity].
  now rewrite (exec_all_same_values h (with_status_codes f h) script
                 PowerShell.start (fun e => eq_refl)).
Qed.

(** The steps of the setup on two hosts that differ in status codes only. *)
Lemma same_ending_refl {A} (x : (exception + A) * Machine) : same_ending x x.
Proof. now repeat split. Qed.

Lemma same_ending_bind {A B} (c c' : Py A) (k k' : A -> Py B) (m : Machine) :
  c' m = c m ->
  (forall (a : A) (m1 : Machine), same_ending (k' a m1) (k a m1)) ->
  same_ending (bind c' k' m) (bind c k m).
Proof.
  intros Hc Hk. unfold bind. rewrite Hc.
  destruct (c m) as [[e|a] m1]; [apply same_ending_refl | apply Hk].
Qed.

Lemma bind_modify {B} (g : Machine -> Machine) (k : unit -> Py B) (m : Machine) :
  bind (modify g) k m = k tt (g m).
Proof. reflexivity. Qed.

Lemma get_request_with_status_codes (f : Z -> Z) (h : Host) (url : string)
    (proxy_url : option string) (_stream : option bool) (m : Machine) :
  get_request (with_status_codes f h) url proxy_url _stream m
  = match get_request h url proxy_url _stream m with
    | (inl e, m') => (inl e, m')
    | (inr response, m') =>
        (inr {| status_code := f (status_code response);
                text := text response; content := content response |}, m')
    end.
Proof.
  unfold get_request. cbn [requests_get with_status_codes].
  now destruct (requests_get h _).
Qed.

Lemma same_ending_get_request {B} (f : Z -> Z) (h : Host) (url : string)
    (proxy_url : option string) (_stream : option bool)
    (k k' : Response -> Py B) (m : Machine) :
  (forall (response : Response) (m1 : Machine),
      same_ending
        (k' {| status_code := f (status_code response);
               text := text response; content := content response |} m1)
        (k response m1)) ->
  same_ending (bind (get_request (with_status_codes f h) url proxy_url _stream) k' m)
    (bind (get_request h url proxy_url _stream) k m).
Proof.
  intros Hk. unfold bind. rewrite get_request_with_status_codes.
  destruct (get_request h url proxy_url _stream m) as [[e|response] m1];
    [apply same_ending_refl | apply Hk].
Qed.

(** The extraction and the permission read the content of the response
    kept, not its status. *)
Lemma extraction_with_status_codes (f : Z -> Z) (h : Host) (response : Response)
    (m : Machine) :
  let kept (r : Response) :=
    {| _file_response := Some r; _driver := _driver m; printed := printed m;
       spawned := spawned m; queried := queried m;
       requests_sent := requests_sent m; cwd := cwd m |} in
  same_ending
    ((extract_zip (with_status_codes f h) ;;
      set_execusion_permission (with_status_codes f h))
       (kept {| status_code := f (status_code response);
                text := text response; content := content response |}))
    ((extract_zip h ;; set_execusion_permission h) (kept response)).
Proof.
  cbv zeta. unfold bind.
  match goal with |- context [extract_zip h ?start] =>
    rewrite (extract_zip_on h start response eq_refl)
  end.
  match goal with |- context [extract_zip (with_status_codes f h) ?start] =>
    rewrite (extract_zip_on (with_status_codes f h) start _ eq_refl)
  end.
  cbv zeta.
  cbn [with_status_codes zip_entries zip_read creation_mode content cwd
       _file_response printed spawned queried requests_sent].
  destruct (zip_entries h (content response)) as [archive|];
    [|now repeat split].
  destruct (archive !! "chromedriver.exe") as [bytes|]; [|now repeat split].
  destruct (zip_read h (content response) "chromedriver.exe");
    [|now repeat split..].
  erewrite !set_execusion_permission_on
    by (reflexivity || (cbn [cwd]; apply lookup_insert_eq)).
  cbn [with_status_codes chmod_error].
  destruct (chmod_error h "chromedriver.exe"); now repeat split.
Qed.

(** X15. The status code of an answer is never read: on a host whose
    answers differ from those of another in their status codes only, the
    setup ends the same way, sends the same requests and leaves the same
    files. An error page sent with status 404 is taken for the release name
    or for the archive like any other answer. *)
Theorem status_codes_are_not_read (f : Z -> Z) (h : Host)
    (proxy_url : option string) (m : Machine) :
  let run := setup_chrome_web_driver h proxy_url m in
  let run' := setup_chrome_web_driver (with_status_codes f h) proxy_url m in
  run'.1 = run.1
  /\ cwd run'.2 = cwd run.2
  /\ requests_sent run'.2 = requests_sent run.2
  /\ _driver run'.2 = _driver run.2
  /\ printed run'.2 = printed run.2
  /\ spawned run'.2 = spawned run.2.
Proof.
  cbv zeta.
  change (same_ending (setup_chrome_web_driver (with_status_codes f h) proxy_url m)
            (setup_chrome_web_driver h proxy_url m)).
  unfold setup_chrome_web_driver, system_requirements.
  cbn [sys_platform with_status_codes].
  destruct (String.eqb (sys_platform h) "win32"); [|apply same_ending_refl].
  unfold download_chrome_web_driver, get_chrome_version.
  apply same_ending_bind;
    [apply get_chrome_version_of_with_status_codes|]. intros version m1.
  apply same_ending_bind; [reflexivity|]. intros major_version m2.
  apply same_ending_get_request. intros latest m3. cbn [text].
  apply same_ending_get_request. intros file_response m4.
  rewrite !bind_modify. apply extraction_with_status_codes.
Qed.

(** X16. An empty proxy URL is no proxy: the whole setup runs as it does
    without the argument, every request going out directly. *)
Theorem empty_proxy_url_is_no_proxy (h : Host) (m : Machine) :
  setup_chrome_web_driver h (Some EmptyString) m
  = setup_chrome_web_driver h None m.
Proof.
  unfold setup_chrome_web_driver, download_chrome_web_driver, get_request.
  reflexivity.
Qed.

(** X17. A setup that raises can leave a file behind. The target is opened
    for writing before the entry is read and checked, so a copy that fails
    midway (a bad CRC, say) leaves [chromedriver.exe] with what was copied
    until then, and a failing [os.chmod] leaves it whole; in both cases the
    file has the permission bits it had before, or those of a new file, not
    the ones the code was to set. A setup that raises anywhere else leaves
    the working directory as it was. *)
Theorem failed_setup_leaves_at_most_the_driver (h : Host)
    (proxy_url : option string) (m : Machine) :
  let bits := match cwd m !! "chromedriver.exe" with
              | Some old => mode old
              | None => creation_mode h
              end in
  (forall (m' : Machine) (e : exception),
      setup_chrome_web_driver h proxy_url m = (inl e, m') ->
      cwd m' = cwd m
      \/ exists (response : Response) (bytes : list Byte.byte),
           _file_response m' = Some response
           /\ cwd m' = <["chromedriver.exe" := {| data := bytes; mode := bits |}]>
                         (cwd m)
           /\ (zip_read h (content response) "chromedriver.exe"
               = FailsAfterOpen e bytes
               \/ (zip_read h (content response) "chromedriver.exe" = Extracts
                   /\ chmod_error h "chromedriver.exe" = Some e
                   /\ exists archive,
                        zip_entries h (content response) = Some archive
                        /\ archive !! "chromedriver.exe" = Some bytes)))
  /\ (forall (m1 : Machine) (v : string) (latest file_response : Response)
             (archive : gmap string (list Byte.byte))
             (bytes written : list Byte.byte) (e : exception),
        sys_platform h = "win32" ->
        get_chrome_version h m = (inr (Some v), m1) ->
        PyStr.starts_with_digit v = true ->
        requests_get h
          {| url := "https://chromedriver.storage.googleapis.com"
                    +:+ "/LATEST_RELEASE_" +:+ PyStr.span PyStr.isdigit v;
             proxies := set_proxy proxy_url; stream := None; timeout := 120 |}
        = inr latest ->
        requests_get h
          {| url := "https://chromedriver.storage.googleapis.com" +:+ "/"
                    +:+ PyStr.strip (text latest) +:+ "/chromedriver_win32.zip";
             proxies := set_proxy proxy_url; stream := Some true;
             timeout := 120 |}
        = inr file_response ->
        zip_entries h (content file_response) = Some archive ->
        archive !! "chromedriver.exe" = Some bytes ->
        (zip_read h (content file_response) "chromedriver.exe"
         = FailsAfterOpen e written ->
         exists m',
           setup_chrome_web_driver h proxy_url m = (inl e, m')
           /\ cwd m' = <["chromedriver.exe" := {| data := written; mode := bits |}]>
                         (cwd m))
        /\ (zip_read h (content file_response) "chromedriver.exe" = Extracts ->
            chmod_error h "chromedriver.exe" = Some e ->
            exists m',
              setup_chrome_web_driver h proxy_url m = (inl e, m')
              /\ cwd m' = <["chromedriver.exe" := {| data := bytes; mode := bits |}]>
                            (cwd m))).
Proof.
  cbv zeta. split.
  - intros m' e. unfold setup_chrome_web_driver.
    destruct (system_requirements h).
    2:{ unfold bind, print, modify, sys_exit, raise. intros [= _ <-]. now left. }
    unfold download_chrome_web_driver.
    pipeline_step Hprobe;
      apply get_chrome_version_frame in Hprobe as (Hc1 & _).
    { intros [= _ <-]. now left. }
    pipeline_step Hmajor;
      apply re_search_leading_digits_group_frame in Hmajor as [-> _].
    { intros [= _ <-]. now left. }
    pipeline_step Hlatest;
      apply get_request_frame in Hlatest as (_ & _ & Hc2 & _).
    { intros [= _ <-]. left. congruence. }
    pipeline_step Hfile;
      apply get_request_frame in Hfile as (_ & _ & Hc3 & _).
    { intros [= _ <-]. left. congruence. }
    pipeline_step Hstore; unfold modify in Hstore; [discriminate|].
    injection Hstore as _ <-.
    match goal with |- context [bind (extract_zip h) _ ?start] =>
      assert (Hstart : cwd start = cwd m) by (cbn [cwd]; congruence);
      unfold bind;
      rewrite (extract_zip_on h start _ eq_refl); cbv zeta;
      rewrite Hstart
    end.
    destruct (zip_entries h _) as [archive|] eqn:Hzip;
      [|intros [= _ <-]; now left].
    destruct (archive !! "chromedriver.exe") as [bytes|] eqn:Hentry;
      [|intros [= _ <-]; now left].
    destruct (zip_read h _ "chromedriver.exe") as [|e'|e' written] eqn:Hread.
    + erewrite set_execusion_permission_on;
        [|reflexivity|cbn [cwd]; apply lookup_insert_eq].
      destruct (chmod_error h "chromedriver.exe") as [e'|] eqn:Hchmod;
        [|discriminate].
      intros [= <- <-]. right. eexists _, bytes. cbn [_file_response cwd].
      split; [reflexivity|]. split; [reflexivity|]. right.
      split; [exact Hread|]. split; [reflexivity|]. now exists archive.
    + intros [= _ <-]. now left.
    + intros [= <- <-]. right. eexists _, written. cbn [_file_response cwd].
      split; [reflexivity|]. split; [reflexivity|]. left. exact Hread.
  - intros m1 v latest file_response archive bytes written e
      Hplatform Hprobe Hv Hget1 Hget2 Hzip Hentry.
    destruct (setup_reaches_extraction h proxy_url m m1 v latest file_response
                Hplatform Hprobe Hv Hget1 Hget2) as (m3 & -> & Hresponse & Hcwd).
    unfold bind. rewrite (extract_zip_on h m3 file_response Hresponse).
    cbv zeta. rewrite Hzip, Hentry, Hcwd. split.
    + intros ->. eexists. split; reflexivity.
    + intros -> Hchmod.
      erewrite set_execusion_permission_on;
        [|reflexivity|cbn [cwd]; apply lookup_insert_eq].
      rewrite Hchmod. eexists. split; reflexivity.
Qed.

(** The entry of the archive is corrupt: the copy stops after one byte,
    over a driver that was there from an earlier setup. *)
Lemma failed_setup_leaves_at_most_the_driver_witness :
  let h := {| sys_platform := "win32"; ps_value := fun _ => "119.0.6045.105";
              requests_get := fun _ =>
                inr {| status_code := 200; text := "119.0.6045.35";
                       content := [Byte.x50; Byte.x4b] |};
              zip_entries := fun _ =>
                Some {[ "chromedriver.exe" := [Byte.x4d; Byte.x5a] ]};
              creation_mode := 438; console_decode := Some;
              zip_read := fun _ _ =>
                FailsAfterOpen
                  (BadZipFile "Bad CRC-32 for file 'chromedriver.exe'")
                  [Byte.x4d];
              chmod_error := fun _ => None |} in
  let files : gmap string File :=
    {[ "chromedriver.exe" := {| data := [Byte.x4d; Byte.x5a; Byte.x90];
                                 mode := 493 |} ]} in
  exists m',
    setup_chrome_web_driver h None (init files)
    = (inl (BadZipFile "Bad CRC-32 for file 'chromedriver.exe'"), m')
    /\ cwd m' = <["chromedriver.exe" := {| data := [Byte.x4d]; mode := 493 |}]>
                  files.
Proof.
  intros h files.
  exact (proj1 (proj2 (failed_setup_leaves_at_most_the_driver h None (init files))
                  (get_chrome_version h (init files)).2 "119.0.6045.105"
                  {| status_code := 200; text := "119.0.6045.35";
                     content := [Byte.x50; Byte.x4b] |}
                  {| status_code := 200; text := "119.0.6045.35";
                     content := [Byte.x50; Byte.x4b] |}
                  {[ "chromedriver.exe" := [Byte.x4d; Byte.x5a] ]}
                  [Byte.x4d; Byte.x5a] [Byte.x4d]
                  (BadZipFile "Bad CRC-32 for file 'chromedriver.exe'")
                  eq_refl ltac:(vm_compute; reflexivity) eq_refl eq_refl eq_refl
                  eq_refl eq_refl)
           eq_refl).
Defined.

(** ** The paths of [getXPath] *)

Module DomFacts.
Import Dom.

Lemma same_tag_self (t : string) (kids : list node) :
  same_tag (toLowerCase t) (Element t kids) = true.
Proof. simpl. apply String.eqb_refl. Qed.

(** The place of the element among the filtered children, when the
    children are numbered from [k]. *)
Lemma indexOf_filter_from (tag : string) (previous next : list node) (n : node)
    (k : nat) :
  same_tag tag n = true ->
  indexOf (List.filter (fun entry => same_tag tag entry.2)
             (imap (fun i x => ((k + i)%nat, x)) (previous ++ n :: next)))
    (k + length previous)
  = Z.of_nat (length (List.filter (same_tag tag) previous)).
Proof.
  intros Hn. revert k. induction previous as [|x previous IH]; intros k.
  - simpl. rewrite Hn. simpl. now rewrite Nat.eqb_refl.
  - rewrite <- app_comm_cons, imap_cons.
    rewrite (imap_ext _ (fun i x => ((S k + i)%nat, x)))
      by (intros i y _; simpl; f_equal; lia).
    specialize (IH (S k)).
    cbn [length]. cbv beta.
    replace (k + S (length previous))%nat with (S k + length previous)%nat by lia.
    cbn [List.filter snd]. destruct (same_tag tag x) eqn:Hx.
    + cbn [indexOf length].
      destruct (k + 0 =? S k + length previous)%nat eqn:Heq;
        [apply Nat.eqb_eq in Heq; lia|].
      rewrite IH.
      destruct (Z.of_nat _ <? 0) eqn:Hneg; [apply Z.ltb_lt in Hneg; lia|]. lia.
    + exact IH.
Qed.

Lemma sibling_index_eq (tag : string) (previous next : list node) (n : node) :
  same_tag tag n = true ->
  sibling_index tag previous n next
  = Z.of_nat (length (List.filter (same_tag tag) previous)) + 1.
Proof.
  intros Hn. unfold sibling_index, numbered.
  pose proof (indexOf_filter_from tag previous next n 0 Hn) as Hindex.
  simpl in Hindex. now rewrite Hindex.
Qed.

(** X18. The index of a step counts the element children of the parent
    that come before the node and have its lower-cased tag name, plus one:
    text nodes, comments, elements of other names and everything after the
    node do not count. *)
Theorem sibling_index_counts_previous (tag : string)
    (previous next : list node) (n : node) :
  same_tag tag n = true ->
  sibling_index tag previous n next
  = Z.of_nat (length (List.filter (same_tag tag) previous)) + 1.
Proof. apply sibling_index_eq. Qed.

(** The second [div] of a body, after a text node and a paragraph. *)
Lemma sibling_index_counts_previous_witness :
  sibling_index "div" [Text "intro"; Element "DIV" []; Element "P" []]
    (Element "Div" [Text "Submit"]) [Element "DIV" []]
  = 2.
Proof.
  exact (sibling_index_counts_previous "div"
           [Text "intro"; Element "DIV" []; Element "P" []] [Element "DIV" []]
           (Element "Div" [Text "Submit"]) eq_refl).
Defined.

(** The steps written one after the other. *)
Lemma render_steps_snoc (steps : list step) (s : step) :
  foldr String.append EmptyString (map render_step (steps ++ [s]))
  = foldr String.append EmptyString (map render_step steps) +:+ render_step s.
Proof.
  induction steps as [|s' steps IH]; simpl.
  - now rewrite PyStrFacts.app_empty_r.
  - now rewrite IH, PyStrFacts.app_assoc.
Qed.

Lemma steps_to_nonempty (n : node) (p : position) (children : list node)
    (t : string) (kids : list node) :
  n = Element t kids ->
  document_children n p = Some children ->
  steps_to n p <> [].
Proof.
  intros -> Hdoc. destruct p as [|previous next|ptag previous next up]; simpl in *.
  - discriminate.
  - discriminate.
  - intros Hnil. now apply app_eq_nil in Hnil as [_ Hnil].
Qed.

Lemma getXPath_at_element (n : node) (p : position) (children : list node)
    (t : string) (kids : list node) :
  n = Element t kids ->
  document_children n p = Some children ->
  getXPath_at n p
  = inr ("/" +:+ foldr String.append EmptyString (map render_step (steps_to n p))).
Proof.
  revert n t kids.
  induction p as [|previous next|ptag previous next up IH];
    intros n t kids -> Hdoc; simpl in Hdoc.
  - discriminate.
  - cbn [getXPath_at steps_to map foldr]. unfold render_step. cbn [fst snd].
    now rewrite PyStrFacts.app_empty_r.
  - cbn [getXPath_at steps_to].
    rewrite (IH _ ptag _ eq_refl Hdoc), render_steps_snoc.
    unfold render_step at 2. cbn [fst snd].
    now rewrite !PyStrFacts.app_assoc.
Qed.

(** The step [tag[index]] with the index [getXPath] computes selects the
    node it was computed for. *)
Lemma select_sibling (tag : string) (previous next before : list node)
    (n : node) :
  same_tag tag n = true ->
  select tag (Z.of_nat (length (List.filter (same_tag tag) previous)) + 1)
    before (previous ++ n :: next)
  = Some (before ++ previous, n, next).
Proof.
  intros Hn. revert before.
  induction previous as [|x previous IH]; intros before.
  - simpl. rewrite Hn. now rewrite app_nil_r.
  - cbn [app select List.filter]. destruct (same_tag tag x) eqn:Hx.
    + cbn [length].
      destruct (Z.of_nat (S _) + 1 =? 1) eqn:Hone; [apply Z.eqb_eq in Hone; lia|].
      replace (Z.of_nat (S (length (List.filter (same_tag tag) previous))) + 1 - 1)
        with (Z.of_nat (length (List.filter (same_tag tag) previous)) + 1) by lia.
      rewrite IH. now rewrite <- app_assoc.
    + rewrite IH. now rewrite <- app_assoc.
Qed.

(** Following one more step from where the steps before it lead. *)
Lemma resolve_snoc (steps : list step) (tag : string) (index : Z) :
  steps <> [] ->
  forall (place : list node -> list node -> position) (children : list node)
         (t : string) (kids : list node) (here : position),
    resolve place children steps = Some (Element t kids, here) ->
    resolve place children (steps ++ [(tag, index)])
    = match select tag index [] kids with
      | Some (previous, Element t' kids', next) =>
          Some (Element t' kids', InElement t previous next here)
      | _ => None
      end.
Proof.
  induction steps as [|[tag0 index0] steps IH]; [congruence|].
  intros _ place children t kids here. cbn [resolve app].
  destruct (select tag0 index0 [] children) as [[[previous n0] next]|];
    [|discriminate].
  destruct n0 as [t0 kids0| |]; try discriminate.
  destruct steps as [|s steps].
  - intros [= <- <- <-]. reflexivity.
  - cbn [app]. intros Hrest. apply IH; [discriminate | exact Hrest].
Qed.

Lemma steps_to_lead_back (p : position) :
  forall (t : string) (kids children : list node),
    document_children (Element t kids) p = Some children ->
    resolve InDocument children (steps_to (Element t kids) p)
    = Some (Element t kids, p).
Proof.
  induction p as [|previous next|ptag previous next up IH];
    intros t kids children Hdoc; simpl in Hdoc.
  - discriminate.
  - injection Hdoc as <-. cbn [steps_to resolve].
    rewrite sibling_index_eq by apply same_tag_self.
    now rewrite select_sibling by apply same_tag_self.
  - cbn [steps_to].
    rewrite (resolve_snoc _ _ _
               (steps_to_nonempty _ _ _ _ _ eq_refl Hdoc)
               _ _ _ _ _ (IH _ _ _ Hdoc)).
    rewrite sibling_index_eq by apply same_tag_self.
    now rewrite select_sibling by apply same_tag_self.
Qed.

Lemma steps_to_indices (p : position) (n : node) :
  Forall (fun s : step => 1 <= s.2) (steps_to n p).
Proof.
  revert n. induction p as [|previous next|ptag previous next up IH]; intros n.
  - constructor.
  - destruct n as [t kids| |]; simpl; repeat constructor. simpl.
    rewrite sibling_index_eq by apply same_tag_self. lia.
  - destruct n as [t kids| |]; simpl; try apply IH.
    apply Forall_app. split; [apply IH|]. repeat constructor. simpl.
    rewrite sibling_index_eq by apply same_tag_self. lia.
Qed.

(** X19. For every element of a document [getXPath] returns a path, and
    does not throw: the slash of the document, then one step
    [/tag[index]] for each element from the top down to the element itself,
    with indices from 1. So the path begins with two slashes. *)
Theorem getXPath_of_document_element (t : string) (kids : list node)
    (p : position) (children : list node) :
  document_children (Element t kids) p = Some children ->
  let steps := steps_to (Element t kids) p in
  getXPath (At (Element t kids) p)
  = inr ("/" +:+ foldr String.append EmptyString (map render_step steps))
  /\ Forall (fun s : step => 1 <= s.2) steps
  /\ (exists ancestors index, steps = ancestors ++ [(toLowerCase t, index)])
  /\ exists rest, getXPath (At (Element t kids) p) = inr ("//" +:+ rest).
Proof.
  intros Hdoc steps. subst steps. cbn [getXPath].
  rewrite (getXPath_at_element _ _ _ _ _ eq_refl Hdoc).
  split; [reflexivity|]. split; [apply steps_to_indices|]. split.
  - destruct p as [|previous next|ptag previous next up]; simpl in *.
    + discriminate.
    + now eexists [], _.
    + eexists _, _. reflexivity.
  - pose proof (steps_to_nonempty _ _ _ _ _ eq_refl Hdoc) as Hsteps.
    destruct (steps_to (Element t kids) p) as [|[tag index] steps]; [congruence|].
    cbn [map foldr]. unfold render_step at 1. cbn [fst snd].
    eexists. autorewrite with pystr. reflexivity.
Qed.

(** The button of a small page. *)
Lemma getXPath_of_document_element_witness :
  let button := Element "BUTTON" [Text "Submit"] in
  let in_div := InElement "DIV" [Text " "; Element "SPAN" []] []
                  (InElement "BODY" [Element "DIV" []; Element "P" []] []
                     (InElement "HTML" [Element "HEAD" []] []
                        (InDocument [Comment "a page"] []))) in
  getXPath (At button in_div) = inr "//html[1]/body[1]/div[2]/button[1]".
Proof.
  intros button in_div.
  exact (proj1 (getXPath_of_document_element "BUTTON" [Text "Submit"] in_div
                  _ eq_refl)).
Defined.

(** X20. The steps of the path lead back to the element: read from the
    children of the document, each step taking the [index]-th element child
    of that tag name, the steps of the path [getXPath] returns for an element
    of a document select that element, at its position. *)
Theorem getXPath_steps_lead_back (t : string) (kids : list node)
    (p : position) (children : list node) :
  document_children (Element t kids) p = Some children ->
  getXPath (At (Element t kids) p)
  = inr ("/" +:+ foldr String.append EmptyString
                   (map render_step (steps_to (Element t kids) p)))
  /\ resolve InDocument children (steps_to (Element t kids) p)
     = Some (Element t kids, p).
Proof.
  intros Hdoc. split.
  - cbn [getXPath]. now apply (getXPath_at_element _ _ children t kids).
  - now apply steps_to_lead_back.
Qed.

(** The second of two [div] children of the body, holding the text. *)
Lemma getXPath_steps_lead_back_witness :
  let target := Element "DIV" [Element "SPAN" [Text "Submit"]] in
  let body := [Element "DIV" []; Text " "; target] in
  let where_ := InElement "BODY" [Element "DIV" []; Text " "] []
                  (InElement "HTML" [Element "HEAD" []] [] (InDocument [] [])) in
  let page := [Element "HTML" [Element "HEAD" []; Element "BODY" body]] in
  getXPath (At target where_) = inr "//html[1]/body[1]/div[2]"
  /\ resolve InDocument page [("html", 1); ("body", 1); ("div", 2)]
     = Some (target, where_).
Proof.
  intros target body where_ page.
  exact (getXPath_steps_lead_back "DIV" [Element "SPAN" [Text "Submit"]] where_
           page eq_refl).
Defined.

End DomFacts.

(** ** One shell, a prefix of the table *)

(** X21. The command line of the probe is [powershell -NoProfile] and, in
    double quotes, the text of the statements the shell is taken to run: the
    error preference, then for each command, in the order given, the
    assignment to [$tmp] and the guarded [echo] and [Exit] of the template,
    with one space between statements. *)
Theorem command_line_is_the_script (commands : list string) :
  construct_powershell_commands commands
  = "powershell -NoProfile " +:+ PyStr.dq
    +:+ (PowerShell.render (PowerShell.SetErrorAction "silentlycontinue")
         +:+ " "
         +:+ PyStr.join " "
               (map PowerShell.render (concat (map first_hit commands))))
    +:+ PyStr.dq.
Proof. apply construct_powershell_commands_render. Qed.




